(** * genblastA_to_gff3: the record parser and the feature emitter

    A shallow embedding of [genblastA_to_gff3.py] as CPython 3.11 runs it
    with its defaults.  Lines are strings over the code points 0..255;
    Python [int]s are [Z], and [int] of a text converts at most 4300 digits;
    Python [float]s are IEEE binary64 values, taken from the kernel
    library's [SpecFloat] with [prec = 53] and [emax = 1024], and [sum] adds
    from left to right; the generator [parse_genblastA] is a step function
    over an explicit record of its local variables. *)

From Stdlib Require Import String Ascii List ZArith Bool Lia.
From Stdlib Require Import SpecFloat Btauto QArith.
Import ListNotations.
Local Open Scope string_scope.
Local Open Scope Z_scope.

(** ** Python string operations used by the script *)

Module PyStr.

(** Characters Python 3 treats as white space in [str.split()] and
    [str.rstrip()], among the code points below 256:
    TAB, LF, VT, FF, CR, FS, GS, RS, US, SPACE, NEL and NBSP. *)
Definition is_space (c : ascii) : bool :=
  let n := nat_of_ascii c in
  (((9 <=? n) && (n <=? 13)) || ((28 <=? n) && (n <=? 32))
   || (n =? 133) || (n =? 160))%nat.

(** [\d] on code points below 256. *)
Definition is_digit (c : ascii) : bool :=
  let n := nat_of_ascii c in ((48 <=? n) && (n <=? 57))%nat.

Definition TAB : string := String (ascii_of_nat 9) EmptyString.
Definition LF : string := String (ascii_of_nat 10) EmptyString.

(** [line.startswith(p)] *)
Fixpoint startswith (p line : string) : bool :=
  match p, line with
  | EmptyString, _ => true
  | String a p', String b line' => Ascii.eqb a b && startswith p' line'
  | String _ _, EmptyString => false
  end.

(** [sub in line] *)
Fixpoint contains (sub line : string) : bool :=
  startswith sub line ||
  match line with
  | EmptyString => false
  | String _ line' => contains sub line'
  end.

(** [line.rstrip()] *)
Fixpoint rstrip (s : string) : string :=
  match s with
  | EmptyString => EmptyString
  | String c s' =>
      match rstrip s' with
      | EmptyString => if is_space c then EmptyString else String c EmptyString
      | r => String c r
      end
  end.

(** [line.split()]: the maximal runs of characters that are not white space.
    [cur] is the run being read, if one has been started. *)
Fixpoint split_aux (cur : option string) (s : string) : list string :=
  match s with
  | EmptyString => match cur with Some w => [w] | None => [] end
  | String c s' =>
      if is_space c
      then match cur with
           | Some w => w :: split_aux None s'
           | None => split_aux None s'
           end
      else match cur with
           | Some w => split_aux (Some (w ++ String c EmptyString)) s'
           | None => split_aux (Some (String c EmptyString)) s'
           end
  end.

Definition split (s : string) : list string := split_aux None s.

(** [sep.join(parts)] *)
Fixpoint join (sep : string) (parts : list string) : string :=
  match parts with
  | [] => EmptyString
  | [p] => p
  | p :: rest => p ++ sep ++ join sep rest
  end.

End PyStr.

(** ** The regular expressions

    Both patterns of the script are a sequence of literal texts and named
    groups, each group being one character class under [*], [+] or taken
    once, between an implicit [^] ([re.match] anchors at the start) and a
    final [$].  The matcher below is the backtracking one of [re]: a greedy
    repetition first takes as many characters as it can and gives them back
    one at a time while the rest of the pattern fails. *)

Module Re.

Inductive quant := Star | Plus | Once.

Inductive item :=
| Lit (text : string)
| Group (cls : ascii -> bool) (q : quant).

(** [$]: the end of the text, or just before a line feed that ends it. *)
Definition at_end (s : string) : bool :=
  match s with
  | EmptyString => true
  | String c EmptyString => Ascii.eqb c (ascii_of_nat 10)
  | _ => false
  end.

Fixpoint strip_prefix (p s : string) : option string :=
  match p, s with
  | EmptyString, _ => Some s
  | String a p', String b s' => if Ascii.eqb a b then strip_prefix p' s' else None
  | String _ _, EmptyString => None
  end.

(** A greedy repetition of [cls], at least [least] more characters, having
    taken [taken]; [k] matches the rest of the pattern. *)
Fixpoint greedy (cls : ascii -> bool) (k : string -> option (list string))
    (least : nat) (taken : string) (s : string) : option (list string) :=
  let stop :=
    match least with
    | O => option_map (cons taken) (k s)
    | S _ => None
    end in
  match s with
  | EmptyString => stop
  | String c s' =>
      if cls c
      then match greedy cls k (Nat.pred least) (taken ++ String c EmptyString) s' with
           | Some r => Some r
           | None => stop
           end
      else stop
  end.

(** The texts of the groups, in the order of the pattern. *)
Fixpoint rmatch (p : list item) (s : string) : option (list string) :=
  match p with
  | [] => if at_end s then Some [] else None
  | Lit t :: p' =>
      match strip_prefix t s with
      | Some s' => rmatch p' s'
      | None => None
      end
  | Group cls Once :: p' =>
      match s with
      | String c s' =>
          if cls c then option_map (cons (String c EmptyString)) (rmatch p' s')
          else None
      | EmptyString => None
      end
  | Group cls Star :: p' => greedy cls (rmatch p') 0 EmptyString s
  | Group cls Plus :: p' => greedy cls (rmatch p') 1 EmptyString s
  end.

Definition digit : ascii -> bool := PyStr.is_digit.
Definition is_char (x : ascii) (c : ascii) : bool := Ascii.eqb c x.
Definition other_than (x : ascii) (c : ascii) : bool := negb (Ascii.eqb c x).
(** [[+-]], [[\d.]] and [[-\d.]] *)
Definition sign (c : ascii) : bool := is_char "+" c || is_char "-" c.
Definition digit_dot (c : ascii) : bool := digit c || is_char "." c.
Definition minus_digit_dot (c : ascii) : bool := is_char "-" c || digit c || is_char "." c.

End Re.

(** ** The constants of the script *)

Definition START_STR : string := "//*****************START".
Definition END_STR : string := "//******************END".
Definition QUERY_NAME_STR : string := "//for query: ".
Definition HSP_STR : string := "HSP_ID".

(** What [GENOMIC_MATCH_RE.match] returns: the text of each named group. *)
Record GenomicMatch := {
  gm_query_name : string;
  gm_match_name : string;
  gm_match_start : string;
  gm_match_end : string;
  gm_strand : string;
  gm_coverage_num : string;
  gm_coverage_perc : string;
  gm_score : string;
  gm_rank : string
}.

Definition GENOMIC_MATCH_PATTERN : list Re.item :=
  [ Re.Group (Re.other_than "|") Re.Star; Re.Lit "|";
    Re.Group (Re.other_than ":") Re.Star; Re.Lit ":";
    Re.Group Re.digit Re.Plus; Re.Lit "..";
    Re.Group Re.digit Re.Plus; Re.Lit "|";
    Re.Group Re.sign Re.Once; Re.Lit "|gene cover:";
    Re.Group Re.digit Re.Plus; Re.Lit "(";
    Re.Group Re.digit_dot Re.Plus; Re.Lit "%)|score:";
    Re.Group Re.minus_digit_dot Re.Plus; Re.Lit "|rank:";
    Re.Group Re.digit Re.Plus ].

Definition GENOMIC_MATCH_RE (s : string) : option GenomicMatch :=
  match Re.rmatch GENOMIC_MATCH_PATTERN s with
  | Some [q; n; st; en; sd; cn; cp; sc; rk] =>
      Some {| gm_query_name := q; gm_match_name := n; gm_match_start := st;
              gm_match_end := en; gm_strand := sd; gm_coverage_num := cn;
              gm_coverage_perc := cp; gm_score := sc; gm_rank := rk |}
  | _ => None
  end.

(** The groups of [HSP_RE], as texts. *)
Record HspMatch := {
  hm_hsp_id : string;
  hm_match_start : string;
  hm_match_end : string;
  hm_query_start : string;
  hm_query_end : string;
  hm_perc_id : string
}.

Definition HSP_PATTERN : list Re.item :=
  [ Re.Lit "HSP_ID["; Re.Group Re.digit Re.Plus; Re.Lit "]:(";
    Re.Group Re.digit Re.Plus; Re.Lit "-";
    Re.Group Re.digit Re.Plus; Re.Lit ");query:(";
    Re.Group Re.digit Re.Plus; Re.Lit "-";
    Re.Group Re.digit Re.Plus; Re.Lit "); pid: ";
    Re.Group Re.digit_dot Re.Plus ].

Definition HSP_RE (s : string) : option HspMatch :=
  match Re.rmatch HSP_PATTERN s with
  | Some [i; ms; me; qs; qe; p] =>
      Some {| hm_hsp_id := i; hm_match_start := ms; hm_match_end := me;
              hm_query_start := qs; hm_query_end := qe; hm_perc_id := p |}
  | _ => None
  end.

(** ** Numbers *)

Module PyNum.

Definition float := spec_float.

Definition prec : Z := 53.
Definition emax : Z := 1024.

Definition digit_value (c : ascii) : Z := Z.of_nat (nat_of_ascii c - 48).

Fixpoint int_digits (acc : Z) (s : string) : option Z :=
  match s with
  | EmptyString => Some acc
  | String c s' =>
      if PyStr.is_digit c then int_digits (10 * acc + digit_value c) s' else None
  end.

(** The default of [sys.int_max_str_digits]: [int] refuses a text with more
    decimal digits, leading zeros counted. *)
Definition int_max_str_digits : Z := 4300.

Definition within_limit (s : string) : bool :=
  Z.of_nat (String.length s) <=? int_max_str_digits.

(** [int(s)] for a text of decimal digits, which is all a [\d+] group holds.
    [None] is the [ValueError] of a text that is no number or that has more
    digits than the interpreter converts. *)
Definition py_int (s : string) : option Z :=
  match s with
  | EmptyString => None
  | _ => if within_limit s then int_digits 0 s else None
  end.

(** A decimal numeral read so far: the digits as one integer, ten to the
    number of digits after the point, and what has been seen. *)
Record decimal := {
  dec_num : Z;
  dec_scale : Z;
  dec_has_digit : bool;
  dec_has_point : bool
}.

Fixpoint scan_decimal (d : decimal) (s : string) : option decimal :=
  match s with
  | EmptyString => Some d
  | String c s' =>
      if PyStr.is_digit c then
        scan_decimal {| dec_num := 10 * dec_num d + digit_value c;
                        dec_scale := if dec_has_point d then 10 * dec_scale d
                                     else dec_scale d;
                        dec_has_digit := true;
                        dec_has_point := dec_has_point d |} s'
      else if Ascii.eqb c "." then
        if dec_has_point d then None
        else scan_decimal {| dec_num := dec_num d; dec_scale := dec_scale d;
                             dec_has_digit := dec_has_digit d;
                             dec_has_point := true |} s'
      else None
  end.

(** An integer as a float datum, before any rounding. *)
Definition exact (n : Z) : float :=
  match n with
  | Z0 => S754_zero false
  | Zpos p => S754_finite false p 0
  | Zneg p => S754_finite true p 0
  end.

(** [float(s)] for a text over digits and points, which is all a [[\d.]+]
    group holds: a number when it has at most one point and a digit, the
    binary64 nearest to its decimal value; [None] is the [ValueError]. *)
Definition py_float (s : string) : option float :=
  match scan_decimal {| dec_num := 0; dec_scale := 1;
                        dec_has_digit := false; dec_has_point := false |} s with
  | Some d =>
      if dec_has_digit d
      then Some (SFdiv prec emax (exact (dec_num d)) (exact (dec_scale d)))
      else None
  | None => None
  end.

(** The float of an [int] operand in mixed arithmetic. *)
Definition float_of_int (n : Z) : float := binary_normalize prec emax n 0 false.

Definition fadd (x y : float) : float := SFadd prec emax x y.
Definition fdiv (x y : float) : float := SFdiv prec emax x y.
(** [x >= y] on floats *)
Definition fge (x y : float) : bool := SFleb y x.

(** [sum(xs)] of a non-empty list of floats: the additions start from the
    integer [0], which the first addition turns into [0.0]. *)
Definition fsum (xs : list float) : float :=
  fold_left fadd xs (float_of_int 0).

End PyNum.

(** ** Data model *)

(** One value of [hsp_dict]. *)
Record Hsp := {
  match_start : Z;
  match_end : Z;
  query_start : Z;
  query_end : Z;
  perc_id : PyNum.float
}.

(** A Python [dict] keyed by [int]: the keys in insertion order, an
    assignment to a key already present keeping its place. *)
Definition dict := list (Z * Hsp).

Fixpoint dict_set (k : Z) (v : Hsp) (d : dict) : dict :=
  match d with
  | [] => [(k, v)]
  | (k', v') :: d' =>
      if Z.eqb k k' then (k, v) :: d' else (k', v') :: dict_set k v d'
  end.

(** What the generator yields: [dict(match=genomic_match, hsps=hsp_dict)]. *)
Record ParsedRecord := {
  pr_match : GenomicMatch;
  pr_hsps : dict
}.

Inductive exn := ValueError | ZeroDivisionError.

(** The calls of [logging.error], by message.  The [logging.debug] call of
    line 57 is left out. *)
Inductive log_error :=
| WrongFieldCount (n : nat) (line : string)
| GenomicRegexpFailed (line : string)
| HspRegexpFailed (line : string).

Inductive event :=
| Yield (r : ParsedRecord)
| LogError (e : log_error).

(** ** parse_genblastA *)

(** The local variables of the generator. *)
Record parser_state := {
  in_record : bool;
  hsp_dict : dict;
  genomic_match : option GenomicMatch;
  query_name : string
}.

Definition initial_state : parser_state :=
  {| in_record := false; hsp_dict := []; genomic_match := None;
     query_name := EmptyString |}.

Definition set_in_record (b : bool) (st : parser_state) : parser_state :=
  {| in_record := b; hsp_dict := hsp_dict st;
     genomic_match := genomic_match st; query_name := query_name st |}.

Definition set_query_name (q : string) (st : parser_state) : parser_state :=
  {| in_record := in_record st; hsp_dict := hsp_dict st;
     genomic_match := genomic_match st; query_name := q |}.

Definition set_hsp_dict (d : dict) (st : parser_state) : parser_state :=
  {| in_record := in_record st; hsp_dict := d;
     genomic_match := genomic_match st; query_name := query_name st |}.

(** Lines 66 to 69: the key and the value stored for a matched HSP line. *)
Definition hsp_entry (m : HspMatch) : option (Z * Hsp) :=
  match PyNum.py_int (hm_match_start m), PyNum.py_int (hm_match_end m),
        PyNum.py_int (hm_query_start m), PyNum.py_int (hm_query_end m),
        PyNum.py_float (hm_perc_id m), PyNum.py_int (hm_hsp_id m) with
  | Some ms, Some me, Some qs, Some qe, Some p, Some k =>
      Some (k, {| match_start := ms; match_end := me; query_start := qs;
                  query_end := qe; perc_id := p |})
  | _, _, _, _, _, _ => None
  end.

(** One iteration of the [for line in input_filename] loop: what it yields
    and logs, and the variables after it, or the exception that ends the
    generator. *)
Definition step (st : parser_state) (line : string)
    : list event * (exn + parser_state) :=
  if negb (in_record st) then
    if PyStr.startswith START_STR line
    then ([], inr (set_in_record true st))
    else ([], inr st)
  else if PyStr.startswith END_STR line then
    (match genomic_match st with
     | Some m => [Yield {| pr_match := m; pr_hsps := hsp_dict st |}]
     | None => []
     end,
     inr {| in_record := false; hsp_dict := []; genomic_match := None;
            query_name := EmptyString |})
  else if PyStr.startswith QUERY_NAME_STR line then
    let fields := PyStr.split line in
    if negb (Nat.eqb (length fields) 4)
    then ([LogError (WrongFieldCount (length fields) line)],
          inr (set_in_record false st))
    else ([], inr (set_query_name (nth 2 fields EmptyString) st))
  else if PyStr.contains "gene cover" line then
    let '(out, hsps) :=
      match genomic_match st with
      | Some m => ([Yield {| pr_match := m; pr_hsps := hsp_dict st |}], [])
      | None => ([], hsp_dict st)
      end in
    match GENOMIC_MATCH_RE (PyStr.rstrip line) with
    | None =>
        ((out ++ [LogError (GenomicRegexpFailed line)])%list,
         inr {| in_record := false; hsp_dict := hsps; genomic_match := None;
                query_name := query_name st |})
    | Some m =>
        (out,
         inr {| in_record := true; hsp_dict := hsps; genomic_match := Some m;
                query_name := query_name st |})
    end
  else if PyStr.startswith HSP_STR line then
    match HSP_RE (PyStr.rstrip line) with
    | None => ([LogError (HspRegexpFailed line)], inr (set_in_record false st))
    | Some m =>
        match hsp_entry m with
        | None => ([], inl ValueError)
        | Some (k, hsp) => ([], inr (set_hsp_dict (dict_set k hsp (hsp_dict st)) st))
        end
    end
  else ([], inr st).

(** The loop from a given state: every event in order, and how it ends. *)
Fixpoint run (st : parser_state) (lines : list string)
    : list event * (exn + parser_state) :=
  match lines with
  | [] => ([], inr st)
  | line :: rest =>
      match step st line with
      | (out, inl e) => (out, inl e)
      | (out, inr st') =>
          let '(out', r) := run st' rest in ((out ++ out')%list, r)
      end
  end.

Definition parse_genblastA (input_filename : list string)
    : list event * (exn + parser_state) :=
  run initial_state input_filename.

(** The records among the events, in the order they are yielded. *)
Fixpoint records (evs : list event) : list ParsedRecord :=
  match evs with
  | [] => []
  | Yield r :: evs' => r :: records evs'
  | LogError _ :: evs' => records evs'
  end.

Fixpoint errors (evs : list event) : list log_error :=
  match evs with
  | [] => []
  | Yield _ :: evs' => errors evs'
  | LogError e :: evs' => e :: errors evs'
  end.

(** ** write_gff_line *)

(** The three thresholds of [args]. *)
Record Args := {
  min_perc_coverage : PyNum.float;
  min_match_length : Z;
  min_perc_identity : PyNum.float
}.

Inductive emitted :=
| Wrote (gff_line : string)
| Skipped
| Raised (e : exn).

Definition attributes (query_name : string) (m : GenomicMatch) : string :=
  "ID=" ++ query_name ++ "_" ++ gm_rank m.

Definition gff_line (m : GenomicMatch) (query_name : string) : string :=
  PyStr.join PyStr.TAB
    [gm_match_name m; "BLAST"; "match"; gm_match_start m; gm_match_end m;
     gm_score m; gm_strand m; "."; attributes query_name m] ++ PyStr.LF.

Definition perc_ids (d : dict) : list PyNum.float :=
  map (fun kv => perc_id (snd kv)) d.

(** The mean of line 76 for a mapping that is not empty. *)
Definition avg_perc_identity (d : dict) : PyNum.float :=
  PyNum.fdiv (PyNum.fsum (perc_ids d))
             (PyNum.float_of_int (Z.of_nat (length d))).

Definition write_gff_line (args : Args) (m : GenomicMatch) (hsps : dict)
    (query_name : string) : emitted :=
  let num_hsps := length hsps in
  match PyNum.py_int (gm_match_end m), PyNum.py_int (gm_match_start m) with
  | Some e, Some s =>
      let match_length := Z.abs (e - s) in
      match num_hsps with
      | O => Raised ZeroDivisionError
      | S _ =>
          let avg := avg_perc_identity hsps in
          match PyNum.py_float (gm_coverage_perc m) with
          | None => Raised ValueError
          | Some query_coverage_perc =>
              if PyNum.fge avg (min_perc_identity args)
                 && PyNum.fge query_coverage_perc (min_perc_coverage args)
                 && (min_match_length args <=? match_length)
              then Wrote (gff_line m query_name)
              else Skipped
          end
      end
  | _, _ => Raised ValueError
  end.

(** ** The driver loop of lines 111 to 113 *)

(** The call of line 113 for one yielded record. *)
Definition emit (args : Args) (r : ParsedRecord) : emitted :=
  write_gff_line args (pr_match r) (pr_hsps r) (gm_query_name (pr_match r)).

(** The feature lines written for the records, up to the first exception. *)
Fixpoint emit_all (args : Args) (rs : list ParsedRecord)
    : list string * option exn :=
  match rs with
  | [] => ([], None)
  | r :: rs' =>
      match emit args r with
      | Raised e => ([], Some e)
      | Skipped => emit_all args rs'
      | Wrote l => let '(ls, e) := emit_all args rs' in (l :: ls, e)
      end
  end.

Definition GFF_HEADER : string := "##gff-version 3" ++ PyStr.LF.

(** Everything written to [args.gff_file], and the exception that ends the
    program, if any: one raised by the emitter stops the loop at once, one
    raised by the generator arrives after the records before it are done. *)
Definition main (args : Args) (input : list string) : list string * option exn :=
  let '(evs, r) := parse_genblastA input in
  let '(ls, e) := emit_all args (records evs) in
  (GFF_HEADER :: ls,
   match e with
   | Some x => Some x
   | None => match r with inl x => Some x | inr _ => None end
   end).

(** ** Vocabulary for the statements *)

Local Open Scope list_scope.

(** Which branch of the [if]/[elif] chain a line takes inside a record. *)
Inductive line_kind := KEnd | KQuery | KGene | KHsp | KOther.

Definition kind (line : string) : line_kind :=
  if PyStr.startswith END_STR line then KEnd
  else if PyStr.startswith QUERY_NAME_STR line then KQuery
  else if PyStr.contains "gene cover" line then KGene
  else if PyStr.startswith HSP_STR line then KHsp
  else KOther.

(** The entry an HSP line adds to the mapping, when the line is well formed. *)
Definition hsp_of_line (line : string) : option (Z * Hsp) :=
  match kind line with
  | KHsp =>
      match HSP_RE (PyStr.rstrip line) with
      | Some m => hsp_entry m
      | None => None
      end
  | _ => None
  end.

(** The match a gene-cover line starts, when the line is well formed. *)
Definition gene_of_line (line : string) : option GenomicMatch :=
  match kind line with
  | KGene => GENOMIC_MATCH_RE (PyStr.rstrip line)
  | _ => None
  end.

(** A well-formed line of a block that is neither its end marker nor a
    gene-cover line: a query-name line of four fields, an HSP line that
    parses, or a line the parser ignores. *)
Definition body_line (line : string) : bool :=
  match kind line with
  | KEnd | KGene => false
  | KQuery => Nat.eqb (length (PyStr.split line)) 4
  | KHsp => match hsp_of_line line with Some _ => true | None => false end
  | KOther => true
  end.

(** The entries of the HSP lines among [lines], in order. *)
Definition entries (lines : list string) : list (Z * Hsp) :=
  flat_map (fun l => match hsp_of_line l with Some e => [e] | None => [] end) lines.

(** The mapping after the assignments [d[k] = v] for [es], in order. *)
Definition dict_of (es : list (Z * Hsp)) (d : dict) : dict :=
  fold_left (fun d e => dict_set (fst e) (snd e) d) es d.

(** The value of the variable [query_name] after well-formed lines. *)
Definition tracked_query (q : string) (lines : list string) : string :=
  fold_left (fun q l => match kind l with
                        | KQuery => nth 2 (PyStr.split l) EmptyString
                        | _ => q
                        end) lines q.

(** What finalising the active match yields. *)
Definition pending (st : parser_state) : list event :=
  match genomic_match st with
  | Some m => [Yield {| pr_match := m; pr_hsps := hsp_dict st |}]
  | None => []
  end.

(** The mapping a gene-cover line starts from. *)
Definition carried (st : parser_state) : dict :=
  match genomic_match st with
  | Some _ => []
  | None => hsp_dict st
  end.

(** No match and no entry left from earlier lines: the variables at the
    start of the input and after every end marker. *)
Definition clean (st : parser_state) : Prop :=
  genomic_match st = None /\ hsp_dict st = [].

(** A gene-cover line with the match it starts and the lines up to the next
    gene-cover line or end marker. *)
Record segment := {
  seg_line : string;
  seg_match : GenomicMatch;
  seg_rest : list string
}.

Definition segment_ok (g : segment) : Prop :=
  gene_of_line (seg_line g) = Some (seg_match g) /\
  Forall (fun l => body_line l = true) (seg_rest g).

Definition segment_lines (g : segment) : list string :=
  seg_line g :: seg_rest g.

Definition segment_record (before : list string) (g : segment) : ParsedRecord :=
  {| pr_match := seg_match g;
     pr_hsps := dict_of (entries (before ++ seg_rest g)) [] |}.

(** The records of a block: [pre] are the lines before its first gene-cover
    line. *)
Definition block_records (pre : list string) (gs : list segment)
    : list ParsedRecord :=
  match gs with
  | [] => []
  | g :: gs' => segment_record pre g :: map (segment_record []) gs'
  end.

Definition block (start : string) (pre : list string) (gs : list segment)
    (stop : string) : list string :=
  start :: pre ++ flat_map segment_lines gs ++ [stop].

(** The two lines that finalise a match: an end marker and a gene-cover
    line. *)
Definition is_boundary (line : string) : bool :=
  match kind line with
  | KEnd | KGene => true
  | _ => false
  end.

(** The step inside a record, by the kind of the line. *)
Definition step_inside_by_kind (st : parser_state) (line : string)
    : list event * (exn + parser_state) :=
  match kind line with
  | KEnd => (pending st, inr initial_state)
  | KQuery =>
      if Nat.eqb (length (PyStr.split line)) 4
      then ([], inr (set_query_name (nth 2 (PyStr.split line) EmptyString) st))
      else ([LogError (WrongFieldCount (length (PyStr.split line)) line)],
            inr (set_in_record false st))
  | KGene =>
      match GENOMIC_MATCH_RE (PyStr.rstrip line) with
      | Some m =>
          (pending st,
           inr {| in_record := true; hsp_dict := carried st;
                  genomic_match := Some m; query_name := query_name st |})
      | None =>
          (pending st ++ [LogError (GenomicRegexpFailed line)],
           inr {| in_record := false; hsp_dict := carried st;
                  genomic_match := None; query_name := query_name st |})
      end
  | KHsp =>
      match HSP_RE (PyStr.rstrip line) with
      | Some m =>
          match hsp_entry m with
          | Some (k, h) => ([], inr (set_hsp_dict (dict_set k h (hsp_dict st)) st))
          | None => ([], inl ValueError)
          end
      | None => ([LogError (HspRegexpFailed line)], inr (set_in_record false st))
      end
  | KOther => ([], inr st)
  end.

(** The HSP lines among [lines]. *)
Definition is_hsp_line (line : string) : bool :=
  match kind line with
  | KHsp => true
  | _ => false
  end.

Definition hsp_lines (lines : list string) : list string :=
  filter is_hsp_line lines.

(** One threshold raised, the other two unchanged. *)
Definition raised (a a' : Args) : Prop :=
  (SFleb (min_perc_identity a) (min_perc_identity a') = true /\
   min_perc_coverage a = min_perc_coverage a' /\
   min_match_length a = min_match_length a')
  \/
  (min_perc_identity a = min_perc_identity a' /\
   SFleb (min_perc_coverage a) (min_perc_coverage a') = true /\
   min_match_length a = min_match_length a')
  \/
  (min_perc_identity a = min_perc_identity a' /\
   min_perc_coverage a = min_perc_coverage a' /\
   min_match_length a <= min_match_length a').

(** The feature lines of a run: what [main] writes after the header. *)
Definition feature_lines (args : Args) (input : list string) : list string :=
  tl (fst (main args input)).

(** The groups of a pattern hold what their classes allow. *)
Fixpoint all_chars (cls : ascii -> bool) (s : string) : bool :=
  match s with
  | EmptyString => true
  | String c s' => cls c && all_chars cls s'
  end.

Definition least_length (q : Re.quant) : nat :=
  match q with Re.Star => 0 | Re.Plus => 1 | Re.Once => 1 end.

Fixpoint groups_ok (p : list Re.item) (caps : list string) : Prop :=
  match p with
  | [] => caps = []
  | Re.Lit _ :: p' => groups_ok p' caps
  | Re.Group cls q :: p' =>
      match caps with
      | c :: caps' =>
          all_chars cls c = true /\ (least_length q <= String.length c)%nat /\
          groups_ok p' caps'
      | [] => False
      end
  end.

(** ** Sample input *)

Module Sample.

Definition start_line : string := "//*****************START" ++ PyStr.LF.
Definition end_line : string := "//******************END" ++ PyStr.LF.
Definition query_line : string := "//for query: QGENE //" ++ PyStr.LF.
Definition gene_line : string :=
  "QGENE|CHR1:100..200|+|gene cover:100(95.0%)|score:50.5|rank:1" ++ PyStr.LF.
Definition gene_line2 : string :=
  "QGENE|CHR2:900..400|-|gene cover:80(85.5%)|score:-3.25|rank:2" ++ PyStr.LF.
Definition other_gene_line : string :=
  "OTHER|CHR1:100..200|+|gene cover:100(95.0%)|score:50.5|rank:1" ++ PyStr.LF.
Definition bad_gene_line : string := "QGENE|CHR1 gene cover:100" ++ PyStr.LF.
Definition hsp_line0 : string :=
  "HSP_ID[0]:(100-150);query:(1-50); pid: 98.0" ++ PyStr.LF.
Definition hsp_line1 : string :=
  "HSP_ID[1]:(150-200);query:(51-100); pid: 96.0" ++ PyStr.LF.
Definition bad_hsp_line : string := "HSP_ID[2]:(150-200)" ++ PyStr.LF.
Definition bad_query_line : string := "//for query: QGENE" ++ PyStr.LF.
Definition bad_pid_line : string :=
  "HSP_ID[0]:(1-2);query:(1-2); pid: 1.2.3" ++ PyStr.LF.

Definition float_of (s : string) : PyNum.float :=
  match PyNum.py_float s with
  | Some x => x
  | None => S754_nan
  end.

(** The default thresholds of the argument parser: 80.0, 100 and 80.0. *)
Definition default_args : Args :=
  {| min_perc_coverage := float_of "80.0";
     min_match_length := 100;
     min_perc_identity := float_of "80.0" |}.

Definition gene_match : GenomicMatch :=
  {| gm_query_name := "QGENE"; gm_match_name := "CHR1";
     gm_match_start := "100"; gm_match_end := "200"; gm_strand := "+";
     gm_coverage_num := "100"; gm_coverage_perc := "95.0";
     gm_score := "50.5"; gm_rank := "1" |}.

Definition gene_match2 : GenomicMatch :=
  {| gm_query_name := "QGENE"; gm_match_name := "CHR2";
     gm_match_start := "900"; gm_match_end := "400"; gm_strand := "-";
     gm_coverage_num := "80"; gm_coverage_perc := "85.5";
     gm_score := "-3.25"; gm_rank := "2" |}.

Definition other_match : GenomicMatch :=
  {| gm_query_name := "OTHER"; gm_match_name := "CHR1";
     gm_match_start := "100"; gm_match_end := "200"; gm_strand := "+";
     gm_coverage_num := "100"; gm_coverage_perc := "95.0";
     gm_score := "50.5"; gm_rank := "1" |}.

Definition hsp0 : Hsp :=
  {| match_start := 100; match_end := 150; query_start := 1; query_end := 50;
     perc_id := float_of "98.0" |}.
Definition hsp1 : Hsp :=
  {| match_start := 150; match_end := 200; query_start := 51; query_end := 100;
     perc_id := float_of "96.0" |}.

Definition hsp_line0_again : string :=
  "HSP_ID[0]:(120-160);query:(5-60); pid: 91.5" ++ PyStr.LF.
Definition hsp0_again : Hsp :=
  {| match_start := 120; match_end := 160; query_start := 5; query_end := 60;
     perc_id := float_of "91.5" |}.

Fixpoint replicate (n : nat) (c : ascii) : string :=
  match n with
  | O => EmptyString
  | S n' => String c (replicate n' c)
  end.

(** A number of 4301 digits, one more than [int] converts. *)
Definition long_number : string := replicate 4301 "1".

Definition long_gene_line : string :=
  "QGENE|CHR1:1.." ++ long_number
  ++ "|+|gene cover:100(95.0%)|score:50.5|rank:1" ++ PyStr.LF.

Definition long_match : GenomicMatch :=
  {| gm_query_name := "QGENE"; gm_match_name := "CHR1";
     gm_match_start := "1"; gm_match_end := long_number; gm_strand := "+";
     gm_coverage_num := "100"; gm_coverage_perc := "95.0";
     gm_score := "50.5"; gm_rank := "1" |}.

(** Three HSPs whose perc_id values have a mean just below 80. *)
Definition hsp_near : Hsp :=
  {| match_start := 100; match_end := 130; query_start := 1; query_end := 30;
     perc_id := float_of "79.99999999999999" |}.
Definition hsp_80 : Hsp :=
  {| match_start := 130; match_end := 200; query_start := 31; query_end := 100;
     perc_id := float_of "80.0" |}.
Definition near_hsps : dict := [(0, hsp_near); (1, hsp_80); (2, hsp_80)].

Definition segment1 : segment :=
  {| seg_line := gene_line; seg_match := gene_match;
     seg_rest := [hsp_line0; hsp_line1] |}.
Definition segment2 : segment :=
  {| seg_line := gene_line2; seg_match := gene_match2;
     seg_rest := [hsp_line1] |}.

(** The feature line of [gene_match] under the query name [QGENE]. *)
Definition feature_line : string :=
  "CHR1" ++ PyStr.TAB ++ "BLAST" ++ PyStr.TAB ++ "match" ++ PyStr.TAB
  ++ "100" ++ PyStr.TAB ++ "200" ++ PyStr.TAB ++ "50.5" ++ PyStr.TAB
  ++ "+" ++ PyStr.TAB ++ "." ++ PyStr.TAB ++ "ID=QGENE_1" ++ PyStr.LF.

(** The same with the query name [OTHER]. *)
Definition other_feature_line : string :=
  "CHR1" ++ PyStr.TAB ++ "BLAST" ++ PyStr.TAB ++ "match" ++ PyStr.TAB
  ++ "100" ++ PyStr.TAB ++ "200" ++ PyStr.TAB ++ "50.5" ++ PyStr.TAB
  ++ "+" ++ PyStr.TAB ++ "." ++ PyStr.TAB ++ "ID=OTHER_1" ++ PyStr.LF.

End Sample.

(** ** Vocabulary for the further properties *)

(** The text a pattern matches when its groups hold [caps], with [tail]
    behind it. *)
Fixpoint assemble (p : list Re.item) (caps : list string) (tail : string)
    : string :=
  match p with
  | [] => tail
  | Re.Lit t :: p' => (t ++ assemble p' caps tail)%string
  | Re.Group _ _ :: p' =>
      match caps with
      | c :: caps' => (c ++ assemble p' caps' tail)%string
      | [] => tail
      end
  end.

(** The text [s] does not go on with a character of [cls]. *)
Definition stops (cls : ascii -> bool) (s : string) : bool :=
  match s with
  | EmptyString => true
  | String c _ => negb (cls c)
  end.

(** Each group holds characters of its class, as many as its quantifier
    takes. *)
Fixpoint groups_fit (p : list Re.item) (caps : list string) : bool :=
  match p with
  | [] => match caps with [] => true | _ :: _ => false end
  | Re.Lit _ :: p' => groups_fit p' caps
  | Re.Group cls q :: p' =>
      match caps with
      | c :: caps' =>
          all_chars cls c
          && match q with
             | Re.Star => true
             | Re.Plus => Nat.leb 1 (String.length c)
             | Re.Once => Nat.eqb (String.length c) 1
             end
          && groups_fit p' caps'
      | [] => false
      end
  end.

(** What follows each repeated group does not go on with a character of
    the group. *)
Fixpoint delimited (p : list Re.item) (caps : list string) (tail : string)
    : bool :=
  match p with
  | [] => true
  | Re.Lit _ :: p' => delimited p' caps tail
  | Re.Group cls q :: p' =>
      match caps with
      | c :: caps' =>
          match q with
          | Re.Once => true
          | _ => stops cls (assemble p' caps' tail)
          end
          && delimited p' caps' tail
      | [] => false
      end
  end.

Definition nonempty (s : string) : bool :=
  match s with
  | EmptyString => false
  | String _ _ => true
  end.

(** A text of one or more decimal digits. *)
Definition number_text (s : string) : bool :=
  nonempty s && all_chars Re.digit s.

Definition genomic_groups (m : GenomicMatch) : list string :=
  [gm_query_name m; gm_match_name m; gm_match_start m; gm_match_end m;
   gm_strand m; gm_coverage_num m; gm_coverage_perc m; gm_score m; gm_rank m].

(** The gene-cover line with the fields of [m]. *)
Definition format_genomic (m : GenomicMatch) : string :=
  (gm_query_name m ++ "|" ++ gm_match_name m ++ ":" ++ gm_match_start m
   ++ ".." ++ gm_match_end m ++ "|" ++ gm_strand m ++ "|gene cover:"
   ++ gm_coverage_num m ++ "(" ++ gm_coverage_perc m ++ "%)|score:"
   ++ gm_score m ++ "|rank:" ++ gm_rank m)%string.

(** The fields a gene-cover line can carry. *)
Definition genomic_fields_ok (m : GenomicMatch) : bool :=
  all_chars (Re.other_than "|") (gm_query_name m)
  && all_chars (Re.other_than ":") (gm_match_name m)
  && number_text (gm_match_start m)
  && number_text (gm_match_end m)
  && (String.eqb (gm_strand m) "+" || String.eqb (gm_strand m) "-")
  && number_text (gm_coverage_num m)
  && (nonempty (gm_coverage_perc m) && all_chars Re.digit_dot (gm_coverage_perc m))
  && (nonempty (gm_score m) && all_chars Re.minus_digit_dot (gm_score m))
  && number_text (gm_rank m).

Definition hsp_groups (m : HspMatch) : list string :=
  [hm_hsp_id m; hm_match_start m; hm_match_end m; hm_query_start m;
   hm_query_end m; hm_perc_id m].

(** The HSP line with the fields of [m]. *)
Definition format_hsp (m : HspMatch) : string :=
  ("HSP_ID[" ++ hm_hsp_id m ++ "]:(" ++ hm_match_start m ++ "-"
   ++ hm_match_end m ++ ");query:(" ++ hm_query_start m ++ "-"
   ++ hm_query_end m ++ "); pid: " ++ hm_perc_id m)%string.

Definition hsp_fields_ok (m : HspMatch) : bool :=
  number_text (hm_hsp_id m)
  && number_text (hm_match_start m)
  && number_text (hm_match_end m)
  && number_text (hm_query_start m)
  && number_text (hm_query_end m)
  && (nonempty (hm_perc_id m) && all_chars Re.digit_dot (hm_perc_id m)).

(** [d[k]], [None] for a missing key. *)
Fixpoint dict_get (k : Z) (d : dict) : option Hsp :=
  match d with
  | [] => None
  | (k', v) :: d' => if Z.eqb k k' then Some v else dict_get k d'
  end.

Definition keys (d : dict) : list Z := map fst d.

(** [[hsp_dict[i]['perc_id'] for i in hsp_dict]] of line 76, key by key. *)
Definition looked_up_perc_ids (d : dict) : list (option PyNum.float) :=
  map (fun i => option_map perc_id (dict_get i d)) (keys d).

(** The value of the last entry for [k] among [es]. *)
Fixpoint last_entry (k : Z) (es : list (Z * Hsp)) : option Hsp :=
  match es with
  | [] => None
  | (k', v) :: es' =>
      match last_entry k es' with
      | Some w => Some w
      | None => if Z.eqb k k' then Some v else None
      end
  end.

(** A well-formed block with the lines in front of its start marker. *)
Record framed_block := {
  fb_gap : list string;
  fb_start : string;
  fb_pre : list string;
  fb_segments : list segment;
  fb_stop : string
}.

Definition framed_block_ok (b : framed_block) : Prop :=
  Forall (fun l => PyStr.startswith START_STR l = false) (fb_gap b) /\
  PyStr.startswith START_STR (fb_start b) = true /\
  Forall (fun l => body_line l = true) (fb_pre b) /\
  Forall segment_ok (fb_segments b) /\
  PyStr.startswith END_STR (fb_stop b) = true.

Definition framed_block_lines (b : framed_block) : list string :=
  fb_gap b ++ block (fb_start b) (fb_pre b) (fb_segments b) (fb_stop b).

Definition framed_block_records (b : framed_block) : list ParsedRecord :=
  block_records (fb_pre b) (fb_segments b).

(** A line the parser logs and gives up the record on, without a match of
    its own being at stake: a query-name line that does not have four
    fields, or an HSP line that fails its pattern. *)
Definition aborting_line (line : string) : bool :=
  match kind line with
  | KQuery => negb (Nat.eqb (length (PyStr.split line)) 4)
  | KHsp => match HSP_RE (PyStr.rstrip line) with Some _ => false | None => true end
  | _ => false
  end.

(** The error logged for such a line. *)
Definition abort_error (line : string) : log_error :=
  match kind line with
  | KQuery => WrongFieldCount (length (PyStr.split line)) line
  | _ => HspRegexpFailed line
  end.

(** The integer groups of an HSP line are all within the limit of [int]. *)
Definition hsp_ints_within_limit (m : HspMatch) : bool :=
  PyNum.within_limit (hm_hsp_id m)
  && PyNum.within_limit (hm_match_start m)
  && PyNum.within_limit (hm_match_end m)
  && PyNum.within_limit (hm_query_start m)
  && PyNum.within_limit (hm_query_end m).

(** Both coordinates of a match are within the limit of [int]. *)
Definition coordinates_within_limit (m : GenomicMatch) : bool :=
  PyNum.within_limit (gm_match_start m) && PyNum.within_limit (gm_match_end m).

(** The number a finite float stands for; zero for the others. *)
Definition float_value (f : PyNum.float) : Q :=
  match f with
  | S754_finite s m e =>
      let mag := match e with
                 | Z0 => inject_Z (Zpos m)
                 | Zpos p => inject_Z (Zpos m * 2 ^ Zpos p)
                 | Zneg p => Qmake (Zpos m) (2 ^ p)
                 end in
      if s then Qopp mag else mag
  | _ => inject_Z 0
  end.

(** The arithmetic mean of the perc_id values as numbers, without any
    rounding. *)
Definition exact_mean (d : dict) : Q :=
  Qdiv (fold_left Qplus (map float_value (perc_ids d)) (inject_Z 0))
       (inject_Z (Z.of_nat (length d))).

(** [l1] is [l2] with some elements left out. *)
Inductive subseq {A : Type} : list A -> list A -> Prop :=
| subseq_nil : subseq [] []
| subseq_skip (x : A) (l1 l2 : list A) : subseq l1 l2 -> subseq l1 (x :: l2)
| subseq_keep (x : A) (l1 l2 : list A) : subseq l1 l2 -> subseq (x :: l1) (x :: l2).

(** The matches of the gene-cover lines among [lines] that match the
    pattern, in order. *)
Definition gene_matches (lines : list string) : list GenomicMatch :=
  flat_map (fun l => match gene_of_line l with
                     | Some m => [m]
                     | None => []
                     end) lines.

(** The active match, if any, as a list. *)
Definition active_match (st : parser_state) : list GenomicMatch :=
  match genomic_match st with
  | Some m => [m]
  | None => []
  end.

(** ** The steps of the loop, branch by branch *)

Section Steps.

Variable st : parser_state.
Variable line : string.

Lemma step_outside_start :
  in_record st = false -> PyStr.startswith START_STR line = true ->
  step st line = ([], inr (set_in_record true st)).
Proof. intros Hin Hs. unfold step. rewrite Hin, Hs. reflexivity. Qed.

Lemma step_outside_skip :
  in_record st = false -> PyStr.startswith START_STR line = false ->
  step st line = ([], inr st).
Proof. intros Hin Hs. unfold step. rewrite Hin, Hs. reflexivity. Qed.

Hypothesis inside : in_record st = true.

Ltac branch H :=
  unfold step; rewrite inside; unfold kind in H; cbn [negb];
  repeat match type of H with
         | (if ?b then _ else _) = _ => destruct b; try discriminate H
         end.

Lemma step_end :
  kind line = KEnd -> step st line = (pending st, inr initial_state).
Proof. intros H. branch H. reflexivity. Qed.

Lemma step_query_ok :
  kind line = KQuery -> length (PyStr.split line) = 4%nat ->
  step st line = ([], inr (set_query_name (nth 2 (PyStr.split line) EmptyString) st)).
Proof. intros H Hn. branch H. rewrite Hn. reflexivity. Qed.

Lemma step_query_bad :
  kind line = KQuery -> length (PyStr.split line) <> 4%nat ->
  step st line =
  ([LogError (WrongFieldCount (length (PyStr.split line)) line)],
   inr (set_in_record false st)).
Proof.
  intros H Hn. branch H.
  destruct (Nat.eqb_spec (length (PyStr.split line)) 4) as [E|E];
    [contradiction | reflexivity].
Qed.

Lemma step_gene_ok (m : GenomicMatch) :
  gene_of_line line = Some m ->
  step st line =
  (pending st,
   inr {| in_record := true; hsp_dict := carried st; genomic_match := Some m;
          query_name := query_name st |}).
Proof.
  unfold gene_of_line. destruct (kind line) eqn:H; try discriminate.
  intros Hm. branch H. rewrite Hm.
  unfold pending, carried. destruct (genomic_match st); reflexivity.
Qed.

Lemma step_gene_bad :
  kind line = KGene -> GENOMIC_MATCH_RE (PyStr.rstrip line) = None ->
  step st line =
  (pending st ++ [LogError (GenomicRegexpFailed line)],
   inr {| in_record := false; hsp_dict := carried st; genomic_match := None;
          query_name := query_name st |}).
Proof.
  intros H Hm. branch H. rewrite Hm.
  unfold pending, carried. destruct (genomic_match st); reflexivity.
Qed.

Lemma step_hsp_ok (k : Z) (h : Hsp) :
  hsp_of_line line = Some (k, h) ->
  step st line = ([], inr (set_hsp_dict (dict_set k h (hsp_dict st)) st)).
Proof.
  unfold hsp_of_line. destruct (kind line) eqn:H; try discriminate.
  intros Hm. branch H.
  destruct (HSP_RE (PyStr.rstrip line)); [|discriminate].
  rewrite Hm. reflexivity.
Qed.

Lemma step_hsp_bad :
  kind line = KHsp -> HSP_RE (PyStr.rstrip line) = None ->
  step st line = ([LogError (HspRegexpFailed line)], inr (set_in_record false st)).
Proof. intros H Hm. branch H. rewrite Hm. reflexivity. Qed.

Lemma step_hsp_raise (m : HspMatch) :
  kind line = KHsp -> HSP_RE (PyStr.rstrip line) = Some m ->
  hsp_entry m = None ->
  step st line = ([], inl ValueError).
Proof. intros H Hm He. branch H. rewrite Hm, He. reflexivity. Qed.

Lemma step_other :
  kind line = KOther -> step st line = ([], inr st).
Proof. intros H. branch H. reflexivity. Qed.

End Steps.

(** ** Runs of the loop *)

Lemma run_cons_ok (st st' : parser_state) (line : string) (rest : list string)
    (out : list event) :
  step st line = (out, inr st') ->
  run st (line :: rest) = (out ++ fst (run st' rest), snd (run st' rest)).
Proof.
  intros H. cbn [run]. rewrite H. destruct (run st' rest); reflexivity.
Qed.

Lemma run_app_ok (l1 l2 : list string) :
  forall (st st' : parser_state) (out : list event),
  run st l1 = (out, inr st') ->
  run st (l1 ++ l2) = (out ++ fst (run st' l2), snd (run st' l2)).
Proof.
  induction l1 as [|l l1 IH]; intros st st' out H.
  - cbn in H. injection H as <- <-. cbn [app]. destruct (run st l2); reflexivity.
  - cbn [run] in H. cbn [app run].
    destruct (step st l) as [o [e|st1]]; [discriminate|].
    destruct (run st1 l1) as [o1 r1] eqn:E1.
    injection H as <- ->.
    rewrite (IH st1 st' o1 E1).
    destruct (run st' l2) as [o2 r2]. cbn [fst snd].
    now rewrite app_assoc.
Qed.

Lemma run_skip (lines : list string) (st : parser_state) :
  in_record st = false ->
  Forall (fun l => PyStr.startswith START_STR l = false) lines ->
  run st lines = ([], inr st).
Proof.
  intros Hin Hall. induction Hall as [|l ls Hl _ IH]; [reflexivity|].
  rewrite (run_cons_ok _ _ _ _ _ (step_outside_skip st l Hin Hl)).
  rewrite IH. reflexivity.
Qed.

Lemma hsp_of_line_kind (l : string) (e : Z * Hsp) :
  hsp_of_line l = Some e -> kind l = KHsp.
Proof. unfold hsp_of_line. destruct (kind l); congruence. Qed.

Lemma entries_app (l1 l2 : list string) :
  entries (l1 ++ l2) = entries l1 ++ entries l2.
Proof. unfold entries. apply flat_map_app. Qed.

Lemma dict_of_app (e1 e2 : list (Z * Hsp)) (d : dict) :
  dict_of (e1 ++ e2) d = dict_of e2 (dict_of e1 d).
Proof. unfold dict_of. apply fold_left_app. Qed.

(** Well-formed lines between the boundaries of a block only add entries to
    the mapping and replace the tracked query name. *)
Lemma run_body (lines : list string) :
  forall st : parser_state,
  in_record st = true ->
  Forall (fun l => body_line l = true) lines ->
  run st lines =
  ([], inr {| in_record := true;
              hsp_dict := dict_of (entries lines) (hsp_dict st);
              genomic_match := genomic_match st;
              query_name := tracked_query (query_name st) lines |}).
Proof.
  induction lines as [|l ls IH]; intros st Hin Hall.
  - cbn. destruct st; cbn in *. now subst.
  - inversion Hall as [|? ? Hl Hls]; subst.
    unfold body_line in Hl.
    destruct (kind l) eqn:Hk; try discriminate.
    + apply Nat.eqb_eq in Hl.
      rewrite (run_cons_ok _ _ _ _ _ (step_query_ok st l Hin Hk Hl)).
      rewrite IH by (auto; reflexivity). cbn [fst snd app].
      unfold entries at 2. cbn [flat_map]. unfold hsp_of_line at 1.
      unfold tracked_query at 2. cbn [fold_left]. rewrite Hk. reflexivity.
    + destruct (hsp_of_line l) as [[k h]|] eqn:Hh; [|discriminate].
      rewrite (run_cons_ok _ _ _ _ _ (step_hsp_ok st l Hin k h Hh)).
      rewrite IH by (auto; reflexivity). cbn [fst snd app].
      unfold entries at 2. cbn [flat_map]. rewrite Hh.
      unfold tracked_query at 2. cbn [fold_left]. rewrite Hk. reflexivity.
    + rewrite (run_cons_ok _ _ _ _ _ (step_other st l Hin Hk)).
      rewrite IH by (auto; reflexivity). cbn [fst snd app].
      unfold entries at 2. cbn [flat_map]. unfold hsp_of_line at 1.
      unfold tracked_query at 2. cbn [fold_left]. rewrite Hk. reflexivity.
Qed.

(** ** Blocks *)

(** From a gene-cover line on: each gene-cover line finalises the match
    before it, and the end marker the last one. *)
Lemma run_segments (stop : string) (gs : list segment) :
  kind stop = KEnd ->
  Forall segment_ok gs ->
  forall (st : parser_state) (m : GenomicMatch),
  in_record st = true -> genomic_match st = Some m ->
  run st (flat_map segment_lines gs ++ [stop]) =
  (Yield {| pr_match := m; pr_hsps := hsp_dict st |}
     :: map Yield (map (segment_record []) gs),
   inr initial_state).
Proof.
  intros Hstop Hall.
  induction Hall as [|g gs [Hg Hrest] _ IH]; intros st m Hin Hm.
  - cbn [flat_map app map].
    rewrite (run_cons_ok _ _ _ _ _ (step_end st stop Hin Hstop)).
    unfold pending. rewrite Hm. reflexivity.
  - cbn [flat_map]. unfold segment_lines at 1.
    rewrite <- app_assoc. cbn [app].
    rewrite (run_cons_ok _ _ _ _ _ (step_gene_ok st (seg_line g) Hin _ Hg)).
    erewrite run_app_ok by (apply run_body; [reflexivity | exact Hrest]).
    erewrite IH by reflexivity.
    unfold pending, carried. rewrite Hm. cbn. reflexivity.
Qed.

Lemma segment_record_carried (pre : list string) (g : segment) :
  segment_record pre g =
  {| pr_match := seg_match g;
     pr_hsps := dict_of (entries (seg_rest g)) (dict_of (entries pre) []) |}.
Proof. unfold segment_record. now rewrite entries_app, dict_of_app. Qed.

(** A whole block read from outside a record with nothing left over. *)
Lemma run_block (start stop : string) (pre : list string) (gs : list segment)
    (st : parser_state) :
  in_record st = false -> clean st ->
  PyStr.startswith START_STR start = true ->
  kind stop = KEnd ->
  Forall (fun l => body_line l = true) pre ->
  Forall segment_ok gs ->
  run st (block start pre gs stop) =
  (map Yield (block_records pre gs), inr initial_state).
Proof.
  intros Hout [Hnone Hempty] Hstart Hstop Hpre Hgs. unfold block.
  destruct gs as [|g gs].
  - cbn [flat_map app block_records map].
    rewrite (run_cons_ok _ _ _ _ _ (step_outside_start st start Hout Hstart)).
    erewrite run_app_ok by (apply run_body; [reflexivity | exact Hpre]).
    erewrite run_cons_ok by (apply step_end; [reflexivity | exact Hstop]).
    cbn [fst snd app set_in_record hsp_dict genomic_match pending].
    rewrite Hnone. reflexivity.
  - inversion Hgs as [|? ? [Hg Hrest] Hgs']; subst.
    cbn [flat_map]. unfold segment_lines at 1.
    rewrite <- app_assoc. cbn [app].
    rewrite (run_cons_ok _ _ _ _ _ (step_outside_start st start Hout Hstart)).
    erewrite run_app_ok by (apply run_body; [reflexivity | exact Hpre]).
    erewrite run_cons_ok by (apply step_gene_ok; [reflexivity | exact Hg]).
    erewrite run_app_ok by (apply run_body; [reflexivity | exact Hrest]).
    erewrite run_segments by (try reflexivity; assumption).
    cbn [fst snd app set_in_record hsp_dict genomic_match query_name pending
         carried map block_records].
    rewrite Hnone, Hempty.
    rewrite (segment_record_carried pre g). reflexivity.
Qed.

Lemma dict_set_keys_new (k : Z) (v : Hsp) (d : dict) :
  ~ In k (map fst d) -> map fst (dict_set k v d) = map fst d ++ [k].
Proof.
  induction d as [|[k' v'] d IH]; intros Hn; [reflexivity|].
  cbn in *. destruct (Z.eqb_spec k k') as [->|Hne].
  - exfalso. apply Hn. now left.
  - cbn. f_equal. apply IH. intros Hc. apply Hn. now right.
Qed.

Lemma dict_set_keys_in (k : Z) (v : Hsp) (d : dict) (k0 : Z) :
  In k0 (map fst d) -> In k0 (map fst (dict_set k v d)).
Proof.
  induction d as [|[k' v'] d IH]; intros Hin; [contradiction|].
  cbn in *. destruct (Z.eqb_spec k k') as [->|Hne]; cbn; tauto.
Qed.

Lemma dict_of_keys_kept (es : list (Z * Hsp)) :
  forall (d : dict) (k : Z), In k (map fst d) -> In k (map fst (dict_of es d)).
Proof.
  induction es as [|[k v] es IH]; intros d k0 Hin; [exact Hin|].
  cbn. apply IH. now apply dict_set_keys_in.
Qed.

Lemma dict_set_has_key (k : Z) (v : Hsp) (d : dict) :
  In k (map fst (dict_set k v d)).
Proof.
  induction d as [|[k' v'] d IH]; [now left|].
  cbn. destruct (Z.eqb_spec k k'); cbn; tauto.
Qed.

Lemma dict_of_keys (es : list (Z * Hsp)) :
  forall (d : dict) (k : Z), In k (map fst es) -> In k (map fst (dict_of es d)).
Proof.
  induction es as [|[k v] es IH]; intros d k0 Hin; [contradiction|].
  cbn in *. destruct Hin as [<-|Hin].
  - apply dict_of_keys_kept, dict_set_has_key.
  - now apply IH.
Qed.

(** Entries with distinct keys all stay in the mapping, in order. *)
Lemma dict_of_distinct (es : list (Z * Hsp)) :
  forall d : dict,
  NoDup (map fst d ++ map fst es) ->
  dict_of es d = d ++ es.
Proof.
  induction es as [|[k v] es IH]; intros d Hnd.
  - cbn. now rewrite app_nil_r.
  - cbn [dict_of fold_left fst snd]. fold (dict_of es (dict_set k v d)).
    assert (Hk : ~ In k (map fst d)).
    { cbn in Hnd. apply NoDup_remove_2 in Hnd. intros Hc. apply Hnd.
      apply in_or_app. now left. }
    assert (Hset : dict_set k v d = d ++ [(k, v)]).
    { clear - Hk. induction d as [|[k' v'] d IHd]; [reflexivity|].
      cbn in *. destruct (Z.eqb_spec k k') as [->|Hne].
      - exfalso. apply Hk. now left.
      - f_equal. apply IHd. tauto. }
    rewrite Hset, IH.
    + now rewrite <- app_assoc.
    + rewrite map_app. cbn. rewrite <- app_assoc. exact Hnd.
Qed.

Lemma dict_of_size (es : list (Z * Hsp)) :
  NoDup (map fst es) -> length (dict_of es []) = length es.
Proof. intros H. now rewrite dict_of_distinct. Qed.

(** ** What the patterns capture *)

Lemma append_assoc (a b c : string) :
  ((a ++ b) ++ c)%string = (a ++ (b ++ c))%string.
Proof. induction a as [|x a IH]; cbn; [reflexivity | now rewrite IH]. Qed.

Lemma all_chars_snoc (cls : ascii -> bool) (s : string) (c : ascii) :
  all_chars cls s = true -> cls c = true ->
  all_chars cls (s ++ String c EmptyString) = true.
Proof.
  induction s as [|x s IH]; cbn; intros Hs Hc.
  - now rewrite Hc.
  - apply andb_true_iff in Hs as [Hx Hs]. rewrite Hx. cbn. now apply IH.
Qed.

Lemma length_snoc (s : string) (c : ascii) :
  String.length (s ++ String c EmptyString) = S (String.length s).
Proof. induction s as [|x s IH]; cbn; [reflexivity | now rewrite IH]. Qed.

(** A greedy repetition captures characters of its class only, at least as
    many as asked for, and hands the rest of the match to what follows. *)
Lemma greedy_captures (cls : ascii -> bool) (k : string -> option (list string))
    (s : string) :
  forall (least : nat) (taken : string) (r : list string),
  Re.greedy cls k least taken s = Some r ->
  all_chars cls taken = true ->
  exists (c rest : string) (r' : list string),
    r = c :: r' /\ k rest = Some r' /\ all_chars cls c = true /\
    (least + String.length taken <= String.length c)%nat.
Proof.
  induction s as [|x s IH]; intros least taken r H Ht.
  - cbn in H. destruct least; [|discriminate].
    destruct (k EmptyString) as [r'|] eqn:Hk; [|discriminate].
    injection H as <-. exists taken, EmptyString, r'. repeat split; auto.
  - cbn [Re.greedy] in H.
    assert (Hstop : match least with
                    | O => option_map (cons taken) (k (String x s))
                    | S _ => None
                    end = Some r ->
            exists (c rest : string) (r' : list string),
              r = c :: r' /\ k rest = Some r' /\ all_chars cls c = true /\
              (least + String.length taken <= String.length c)%nat).
    { intros H'. destruct least; [|discriminate].
      destruct (k (String x s)) as [r'|] eqn:Hk; [|discriminate].
      injection H' as <-. exists taken, (String x s), r'. repeat split; auto. }
    destruct (cls x) eqn:Hx; [|now apply Hstop].
    destruct (Re.greedy cls k (Nat.pred least) (taken ++ String x EmptyString) s)
      as [r0|] eqn:Hg; [|now apply Hstop].
    injection H as <-.
    destruct (IH _ _ _ Hg (all_chars_snoc _ _ _ Ht Hx))
      as (c & rest & r' & -> & Hk & Hc & Hlen).
    exists c, rest, r'. repeat split; auto.
    rewrite length_snoc in Hlen. lia.
Qed.

Lemma rmatch_groups_ok (p : list Re.item) :
  forall (s : string) (caps : list string),
  Re.rmatch p s = Some caps -> groups_ok p caps.
Proof.
  induction p as [|[t|cls q] p IH]; intros s caps H; cbn [Re.rmatch] in H.
  - cbn. destruct (Re.at_end s); congruence.
  - cbn. destruct (Re.strip_prefix t s); [eauto | discriminate].
  - destruct q.
    + apply greedy_captures in H as (c & rest & r' & -> & Hk & Hc & Hlen);
        [|reflexivity].
      cbn. repeat split; eauto; lia.
    + apply greedy_captures in H as (c & rest & r' & -> & Hk & Hc & Hlen);
        [|reflexivity].
      cbn in *. repeat split; eauto; lia.
    + destruct s as [|x s]; [discriminate|].
      destruct (cls x) eqn:Hx; [|discriminate].
      destruct (Re.rmatch p s) as [r'|] eqn:Hr; [|discriminate].
      injection H as <-. cbn. rewrite Hx. repeat split; eauto.
Qed.

Lemma int_digits_total (s : string) :
  forall acc : Z,
  all_chars PyStr.is_digit s = true ->
  exists n : Z, PyNum.int_digits acc s = Some n.
Proof.
  induction s as [|c s IH]; intros acc H; cbn in *.
  - now exists acc.
  - apply andb_true_iff in H as [Hc Hs]. rewrite Hc. now apply IH.
Qed.

(** [int] converts a [\d+] group of at most 4300 digits, and no longer
    one. *)
Lemma py_int_digits (s : string) :
  all_chars Re.digit s = true -> (1 <= String.length s)%nat ->
  exists n : Z,
    PyNum.int_digits 0 s = Some n /\
    PyNum.py_int s = if PyNum.within_limit s then Some n else None.
Proof.
  intros H Hlen. destruct (int_digits_total s 0 H) as [n Hn].
  exists n. split; [exact Hn|].
  destruct s as [|c s]; [cbn in Hlen; lia|].
  unfold PyNum.py_int. now rewrite Hn.
Qed.

(** The coordinates of a match of [GENOMIC_MATCH_RE] are texts of digits:
    [int] converts each unless it is over the limit. *)
Lemma genomic_match_coordinates (line : string) (m : GenomicMatch) :
  GENOMIC_MATCH_RE line = Some m ->
  exists s e : Z,
    PyNum.int_digits 0 (gm_match_start m) = Some s /\
    PyNum.int_digits 0 (gm_match_end m) = Some e /\
    PyNum.py_int (gm_match_start m)
      = (if PyNum.within_limit (gm_match_start m) then Some s else None) /\
    PyNum.py_int (gm_match_end m)
      = (if PyNum.within_limit (gm_match_end m) then Some e else None).
Proof.
  unfold GENOMIC_MATCH_RE.
  destruct (Re.rmatch GENOMIC_MATCH_PATTERN line) as [caps|] eqn:H; [|discriminate].
  apply rmatch_groups_ok in H. cbn [groups_ok GENOMIC_MATCH_PATTERN] in H.
  destruct caps as [|q [|n [|st [|en [|sd [|cn [|cp [|sc [|rk [|? ?]]]]]]]]]];
    try discriminate.
  intros Hm. injection Hm as <-. cbn [gm_match_start gm_match_end].
  destruct H as (_ & _ & _ & _ & Hst & Lst & Hen & Len & _).
  destruct (py_int_digits st Hst Lst) as (s & Hs & Hs').
  destruct (py_int_digits en Hen Len) as (e & He & He').
  now exists s, e.
Qed.

(** ** The order of floats *)

Lemma SFleb_trans (x y z : spec_float) :
  SFleb x y = true -> SFleb y z = true -> SFleb x z = true.
Proof.
  unfold SFleb, SFcompare.
  change (Pos.compare_cont Eq) with Pos.compare.
  destruct x as [sx|sx| |sx mx ex], y as [sy|sy| |sy my ey],
           z as [sz|sz| |sz mz ez];
    try destruct sx; try destruct sy; try destruct sz;
    try discriminate; try reflexivity;
    repeat match goal with
           | |- context [Z.compare ?a ?b] => destruct (Z.compare_spec a b)
           | |- context [Pos.compare ?a ?b] => destruct (Pos.compare_spec a b)
           end;
    cbn; try discriminate; try reflexivity; intros; subst; lia.
Qed.

(** ** Every step, whatever the state *)

Lemma step_outside (st : parser_state) (line : string) :
  in_record st = false ->
  step st line =
  ([], inr (if PyStr.startswith START_STR line then set_in_record true st else st)).
Proof.
  intros Hin. destruct (PyStr.startswith START_STR line) eqn:Hs.
  - now apply step_outside_start.
  - now apply step_outside_skip.
Qed.

Lemma step_inside (st : parser_state) (line : string) :
  in_record st = true -> step st line = step_inside_by_kind st line.
Proof.
  intros Hin. unfold step_inside_by_kind.
  destruct (kind line) eqn:Hk.
  - now apply step_end.
  - destruct (Nat.eqb_spec (length (PyStr.split line)) 4) as [Hn|Hn].
    + now apply step_query_ok.
    + now apply step_query_bad.
  - destruct (GENOMIC_MATCH_RE (PyStr.rstrip line)) as [m|] eqn:Hm.
    + apply step_gene_ok; [exact Hin|]. unfold gene_of_line. now rewrite Hk.
    + now apply step_gene_bad.
  - destruct (HSP_RE (PyStr.rstrip line)) as [m|] eqn:Hm.
    + destruct (hsp_entry m) as [[k h]|] eqn:He.
      * apply step_hsp_ok; [exact Hin|]. unfold hsp_of_line. now rewrite Hk, Hm.
      * now apply step_hsp_raise with m.
    + now apply step_hsp_bad.
  - now apply step_other.
Qed.

Lemma records_app (a b : list event) :
  records (a ++ b) = records a ++ records b.
Proof.
  induction a as [|[r|e] a IH]; cbn; [reflexivity | now rewrite IH | exact IH].
Qed.

Ltac step_cases st line :=
  let Hin := fresh "Hin" in
  let hm := fresh "hm" in
  destruct (in_record st) eqn:Hin;
  [ rewrite (step_inside st line Hin); unfold step_inside_by_kind, is_boundary in *;
    destruct (kind line) eqn:?;
    [ | destruct (Nat.eqb (length (PyStr.split line)) 4)
      | destruct (GENOMIC_MATCH_RE (PyStr.rstrip line)) eqn:?
      | destruct (HSP_RE (PyStr.rstrip line)) as [hm|];
        [ destruct (hsp_entry hm) as [[? ?]|] | ]
      | ]
  | rewrite (step_outside st line Hin);
    destruct (PyStr.startswith START_STR line) ].

(** A line that is no boundary yields nothing and leaves the active match
    as it is. *)
Lemma step_quiet (st : parser_state) (line : string) :
  is_boundary line = false ->
  records (fst (step st line)) = [] /\
  forall st', snd (step st line) = inr st' -> genomic_match st' = genomic_match st.
Proof.
  intros Hb. step_cases st line; try discriminate Hb;
    (split; [reflexivity | cbn; intros st' H; now inversion H]).
Qed.

(** What a step yields is the match that was active before it. *)
Lemma step_yields_pending (st : parser_state) (line : string) :
  records (fst (step st line)) = [] \/
  (in_record st = true /\ is_boundary line = true /\
   records (fst (step st line)) = records (pending st)).
Proof.
  step_cases st line; cbn [fst]; try rewrite records_app; cbn [records];
    try rewrite app_nil_r; auto.
Qed.

(** The active match after a step is the one before it or the one of the
    line. *)
Lemma step_match_origin (st st' : parser_state) (line : string) (m : GenomicMatch) :
  snd (step st line) = inr st' -> genomic_match st' = Some m ->
  genomic_match st = Some m \/ gene_of_line line = Some m.
Proof.
  unfold gene_of_line.
  step_cases st line; cbn; intros H Hm; inversion H; subst; cbn in Hm;
    try discriminate; auto; try congruence.
Qed.

(** The variable [query_name] is never read. *)
Lemma step_query_unused (st : parser_state) (q : string) (line : string) :
  fst (step (set_query_name q st) line) = fst (step st line) /\
  match snd (step st line) with
  | inl e => snd (step (set_query_name q st) line) = inl e
  | inr st' =>
      exists q', snd (step (set_query_name q st) line) = inr (set_query_name q' st')
  end.
Proof.
  destruct (in_record st) eqn:Hin.
  - rewrite (step_inside st line Hin), (step_inside (set_query_name q st) line Hin).
    unfold step_inside_by_kind, pending, carried.
    cbn [set_query_name in_record hsp_dict genomic_match query_name].
    destruct (kind line).
    + cbn. split; [reflexivity | now exists EmptyString].
    + destruct (Nat.eqb (length (PyStr.split line)) 4); cbn;
        (split; [reflexivity | eexists; reflexivity]).
    + destruct (GENOMIC_MATCH_RE (PyStr.rstrip line)); cbn;
        (split; [reflexivity | eexists; reflexivity]).
    + destruct (HSP_RE (PyStr.rstrip line)) as [hm|];
        [destruct (hsp_entry hm) as [[k h]|]|]; cbn;
        (split; [reflexivity | try reflexivity; eexists; reflexivity]).
    + cbn. split; [reflexivity | eexists; reflexivity].
  - rewrite (step_outside st line Hin), (step_outside (set_query_name q st) line Hin).
    destruct (PyStr.startswith START_STR line); cbn; split; try reflexivity;
      eexists; reflexivity.
Qed.

(** The entry of a match of [HSP_RE] cannot be built in two cases only: the
    pid text is no number, or an integer group is over the limit. *)
Lemma hsp_entry_none_cause (s : string) (m : HspMatch) :
  HSP_RE s = Some m ->
  (hsp_entry m = None <->
   PyNum.py_float (hm_perc_id m) = None \/ hsp_ints_within_limit m = false).
Proof.
  unfold HSP_RE.
  destruct (Re.rmatch HSP_PATTERN s) as [caps|] eqn:H; [|discriminate].
  apply rmatch_groups_ok in H. cbn [groups_ok HSP_PATTERN] in H.
  destruct caps as [|i [|ms [|me [|qs [|qe [|p [|? ?]]]]]]]; try discriminate.
  intros Hm. injection Hm as <-. unfold hsp_entry, hsp_ints_within_limit. cbn.
  destruct H as (Hi & Li & Hms & Lms & Hme & Lme & Hqs & Lqs & Hqe & Lqe & _).
  destruct (py_int_digits i Hi Li) as (? & _ & ->).
  destruct (py_int_digits ms Hms Lms) as (? & _ & ->).
  destruct (py_int_digits me Hme Lme) as (? & _ & ->).
  destruct (py_int_digits qs Hqs Lqs) as (? & _ & ->).
  destruct (py_int_digits qe Hqe Lqe) as (? & _ & ->).
  destruct (PyNum.within_limit i), (PyNum.within_limit ms),
           (PyNum.within_limit me), (PyNum.within_limit qs),
           (PyNum.within_limit qe), (PyNum.py_float p);
    cbn; split; intros H; try discriminate H; auto;
    destruct H as [H|H]; discriminate H.
Qed.

(** The one way a step raises: an HSP line that matches its pattern and
    whose entry cannot be built. *)
Lemma step_raise_cause (st : parser_state) (line : string) (e : exn) :
  snd (step st line) = inl e ->
  e = ValueError /\ in_record st = true /\ kind line = KHsp /\
  exists m : HspMatch,
    HSP_RE (PyStr.rstrip line) = Some m /\
    (PyNum.py_float (hm_perc_id m) = None \/ hsp_ints_within_limit m = false).
Proof.
  destruct (in_record st) eqn:Hin.
  - rewrite (step_inside st line Hin). unfold step_inside_by_kind.
    destruct (kind line) eqn:Hk; try discriminate.
    + destruct (Nat.eqb _ 4); discriminate.
    + destruct (GENOMIC_MATCH_RE _); discriminate.
    + destruct (HSP_RE (PyStr.rstrip line)) as [m|] eqn:Hm; [|discriminate].
      destruct (hsp_entry m) as [[k h]|] eqn:He; [discriminate|].
      cbn. intros H. injection H as <-. repeat split.
      exists m. split; [reflexivity|].
      now apply (hsp_entry_none_cause (PyStr.rstrip line)).
  - rewrite (step_outside st line Hin). discriminate.
Qed.

Lemma hsp_ints_over_limit (m : HspMatch) :
  hsp_ints_within_limit m = false <->
  4300 < Z.of_nat (String.length (hm_hsp_id m)) \/
  4300 < Z.of_nat (String.length (hm_match_start m)) \/
  4300 < Z.of_nat (String.length (hm_match_end m)) \/
  4300 < Z.of_nat (String.length (hm_query_start m)) \/
  4300 < Z.of_nat (String.length (hm_query_end m)).
Proof.
  unfold hsp_ints_within_limit, PyNum.within_limit, PyNum.int_max_str_digits.
  destruct (Z.leb_spec (Z.of_nat (String.length (hm_hsp_id m))) 4300),
    (Z.leb_spec (Z.of_nat (String.length (hm_match_start m))) 4300),
    (Z.leb_spec (Z.of_nat (String.length (hm_match_end m))) 4300),
    (Z.leb_spec (Z.of_nat (String.length (hm_query_start m))) 4300),
    (Z.leb_spec (Z.of_nat (String.length (hm_query_end m))) 4300);
    cbn; split; intros Hx; try discriminate Hx; try reflexivity; try tauto; lia.
Qed.

Lemma run_quiet (lines : list string) :
  forall st : parser_state,
  Forall (fun l => is_boundary l = false) lines ->
  records (fst (run st lines)) = [] /\
  forall st', snd (run st lines) = inr st' -> genomic_match st' = genomic_match st.
Proof.
  induction lines as [|l ls IH]; intros st Hall.
  - cbn. split; [reflexivity | intros st' H; now inversion H].
  - inversion Hall as [|? ? Hl Hls]; subst.
    destruct (step_quiet st l Hl) as [Hr Hm].
    cbn [run]. destruct (step st l) as [out [e|st1]].
    + cbn in *. split; [exact Hr | discriminate].
    + destruct (IH st1 Hls) as [Hr1 Hm1].
      destruct (run st1 ls) as [out1 r1]. cbn [fst snd] in *.
      rewrite records_app, Hr, Hr1. split; [reflexivity|].
      intros st' H. rewrite (Hm1 st' H). now apply Hm.
Qed.

Lemma run_query_unused (lines : list string) :
  forall (st : parser_state) (q : string),
  fst (run (set_query_name q st) lines) = fst (run st lines).
Proof.
  induction lines as [|l ls IH]; intros st q; [reflexivity|].
  destruct (step_query_unused st q l) as [Hf Hs].
  cbn [run].
  destruct (step st l) as [out [e|st1]];
    destruct (step (set_query_name q st) l) as [out' r']; cbn [fst snd] in *; subst.
  - reflexivity.
  - destruct Hs as [q' ->]. specialize (IH st1 q').
    destruct (run (set_query_name q' st1) ls), (run st1 ls). cbn in *. now subst.
Qed.

(** Every match that is yielded was active at the start or was started by a
    gene-cover line of the input. *)
Lemma run_matches_from_lines (lines : list string) :
  forall (st : parser_state) (r : ParsedRecord),
  In r (records (fst (run st lines))) ->
  genomic_match st = Some (pr_match r) \/
  exists l, In l lines /\ gene_of_line l = Some (pr_match r).
Proof.
  induction lines as [|l ls IH]; intros st r Hin; [contradiction|].
  cbn [run] in Hin.
  assert (Hy : In r (records (fst (step st l))) ->
               genomic_match st = Some (pr_match r)).
  { destruct (step_yields_pending st l) as [->|(_ & _ & ->)]; [contradiction|].
    unfold pending. destruct (genomic_match st); [|contradiction].
    intros [<-|[]]. reflexivity. }
  pose proof (fun st' m => step_match_origin st st' l m) as Ho.
  destruct (step st l) as [out [e|st1]]; cbn [fst snd] in *.
  - left. now apply Hy.
  - destruct (run st1 ls) as [out1 r1] eqn:E. cbn [fst] in Hin.
    rewrite records_app in Hin. apply in_app_or in Hin as [Hin|Hin].
    + left. now apply Hy.
    + specialize (IH st1 r). rewrite E in IH.
      destruct (IH Hin) as [Hm|(l' & Hl' & Hg)].
      * destruct (Ho st1 (pr_match r) eq_refl Hm) as [H|H]; [now left|].
        right. exists l. split; [now left | exact H].
      * right. exists l'. split; [now right | exact Hg].
Qed.

(** ** The emitter *)

Lemma join_fields (a b c d e f g h i : string) :
  (PyStr.join PyStr.TAB [a; b; c; d; e; f; g; h; i] ++ PyStr.LF)%string =
  (a ++ PyStr.TAB ++ b ++ PyStr.TAB ++ c ++ PyStr.TAB ++ d ++ PyStr.TAB ++ e
     ++ PyStr.TAB ++ f ++ PyStr.TAB ++ g ++ PyStr.TAB ++ h ++ PyStr.TAB ++ i
     ++ PyStr.LF)%string.
Proof. cbn [PyStr.join]. now rewrite !append_assoc. Qed.

(** Whether the emitter raises does not depend on the thresholds. *)
Lemma emit_raise_any_args (a a' : Args) (r : ParsedRecord) (e : exn) :
  emit a r = Raised e -> emit a' r = Raised e.
Proof.
  unfold emit, write_gff_line.
  destruct (PyNum.py_int (gm_match_end (pr_match r))); [|auto].
  destruct (PyNum.py_int (gm_match_start (pr_match r))); [|auto].
  destruct (length (pr_hsps r)); [auto|].
  destruct (PyNum.py_float (gm_coverage_perc (pr_match r))); [|auto].
  destruct (_ && _ && _); discriminate.
Qed.

(** A record that passes raised thresholds passes the lower ones. *)
Lemma emit_wrote_lower (a a' : Args) (r : ParsedRecord) (l : string) :
  raised a a' -> emit a' r = Wrote l -> emit a r = Wrote l.
Proof.
  unfold emit, write_gff_line, PyNum.fge. intros Hr.
  destruct (PyNum.py_int (gm_match_end (pr_match r))); [|auto].
  destruct (PyNum.py_int (gm_match_start (pr_match r))); [|auto].
  destruct (length (pr_hsps r)); [auto|].
  destruct (PyNum.py_float (gm_coverage_perc (pr_match r))) as [cov|]; [|auto].
  destruct (_ && _ && _) eqn:H'; [|discriminate].
  intros Hw. rewrite <- Hw.
  apply andb_true_iff in H' as [H' Hlen].
  apply andb_true_iff in H' as [Hid Hcov].
  apply Z.leb_le in Hlen.
  assert (Hok : SFleb (min_perc_identity a) (avg_perc_identity (pr_hsps r)) = true
                /\ SFleb (min_perc_coverage a) cov = true
                /\ min_match_length a <= Z.abs (z - z0)).
  { destruct Hr as [(Hi & Hc & Hl)|[(Hi & Hc & Hl)|(Hi & Hc & Hl)]].
    - rewrite Hc, Hl. repeat split; auto. now apply SFleb_trans with (min_perc_identity a').
    - rewrite Hi, Hl. repeat split; auto. now apply SFleb_trans with (min_perc_coverage a').
    - rewrite Hi, Hc. repeat split; auto. lia. }
  destruct Hok as (-> & -> & Hl). apply Z.leb_le in Hl. now rewrite Hl.
Qed.

Lemma emit_all_monotone (a a' : Args) (rs : list ParsedRecord) :
  raised a a' ->
  (length (fst (emit_all a' rs)) <= length (fst (emit_all a rs)))%nat /\
  snd (emit_all a' rs) = snd (emit_all a rs).
Proof.
  intros Hr. induction rs as [|r rs [IHl IHe]]; [split; reflexivity|].
  cbn [emit_all].
  pose proof (emit_raise_any_args a a' r) as Hra.
  pose proof (emit_raise_any_args a' a r) as Hra'.
  pose proof (fun l => emit_wrote_lower a a' r l Hr) as Hw.
  destruct (emit a' r) as [l'| |e'].
  - rewrite (Hw l' eq_refl).
    destruct (emit_all a' rs), (emit_all a rs). cbn in *. split; [lia | exact IHe].
  - destruct (emit a r) as [l| |e].
    + destruct (emit_all a' rs), (emit_all a rs). cbn in *. split; [lia | exact IHe].
    + split; assumption.
    + discriminate (Hra e eq_refl).
  - rewrite (Hra' e' eq_refl). split; reflexivity.
Qed.

Lemma emit_wrote_line (a : Args) (r : ParsedRecord) (l : string) :
  emit a r = Wrote l ->
  l = gff_line (pr_match r) (gm_query_name (pr_match r)).
Proof.
  unfold emit, write_gff_line.
  destruct (PyNum.py_int (gm_match_end (pr_match r))); [|discriminate].
  destruct (PyNum.py_int (gm_match_start (pr_match r))); [|discriminate].
  destruct (length (pr_hsps r)); [discriminate|].
  destruct (PyNum.py_float (gm_coverage_perc (pr_match r))); [|discriminate].
  destruct (_ && _ && _); [|discriminate].
  intros H. now injection H as <-.
Qed.

Lemma emit_all_lines (a : Args) (rs : list ParsedRecord) (l : string) :
  In l (fst (emit_all a rs)) -> exists r, In r rs /\ emit a r = Wrote l.
Proof.
  induction rs as [|r rs IH]; cbn [emit_all]; [contradiction|].
  destruct (emit a r) as [l0| |e] eqn:E.
  - destruct (emit_all a rs) as [ls e']. cbn [fst] in *.
    intros [<-|H].
    + exists r. split; [now left | exact E].
    + destruct (IH H) as (r' & Hr' & He). exists r'. split; [now right | exact He].
  - intros H. destruct (IH H) as (r' & Hr' & He). exists r'. split; [now right | exact He].
  - contradiction.
Qed.

Lemma feature_lines_emit_all (a : Args) (input : list string) :
  feature_lines a input = fst (emit_all a (records (fst (parse_genblastA input)))).
Proof.
  unfold feature_lines, main.
  destruct (parse_genblastA input) as [evs r]. cbn [fst].
  destruct (emit_all a (records evs)). reflexivity.
Qed.

Lemma records_yields (rs : list ParsedRecord) : records (map Yield rs) = rs.
Proof. induction rs as [|r rs IH]; cbn; [reflexivity | now rewrite IH]. Qed.

Lemma kind_end (line : string) :
  PyStr.startswith END_STR line = true -> kind line = KEnd.
Proof. intros H. unfold kind. now rewrite H. Qed.

Lemma entries_count (lines : list string) :
  Forall (fun l => body_line l = true) lines ->
  length (entries lines) = length (hsp_lines lines).
Proof.
  induction 1 as [|l ls Hl _ IH]; [reflexivity|].
  unfold entries, hsp_lines in *. cbn [flat_map filter].
  rewrite length_app, IH.
  unfold body_line in Hl. unfold is_hsp_line, hsp_of_line in *.
  destruct (kind l); try discriminate; try reflexivity.
  destruct (match HSP_RE (PyStr.rstrip l) with Some m => hsp_entry m | None => None end);
    [reflexivity | discriminate].
Qed.


(** ** Aborted blocks *)

(** C1: a block aborted by a malformed HSP line, or by a query-name line
    that does not have four fields, keeps its match and its mapping: the
    next end marker inside a later block yields the aborted match, in the
    second input together with an HSP entry of the later block. *)
Theorem aborted_match_is_emitted_later :
  parse_genblastA
    [Sample.start_line; Sample.query_line; Sample.gene_line; Sample.hsp_line0;
     Sample.bad_hsp_line;
     Sample.start_line; Sample.end_line]
  = ([LogError (HspRegexpFailed Sample.bad_hsp_line);
      Yield {| pr_match := Sample.gene_match;
               pr_hsps := [(0, Sample.hsp0)] |}],
     inr initial_state)
  /\
  parse_genblastA
    [Sample.start_line; Sample.query_line; Sample.gene_line; Sample.hsp_line0;
     Sample.bad_query_line;
     Sample.start_line; Sample.hsp_line1; Sample.end_line]
  = ([LogError (WrongFieldCount 3 Sample.bad_query_line);
      Yield {| pr_match := Sample.gene_match;
               pr_hsps := [(0, Sample.hsp0); (1, Sample.hsp1)] |}],
     inr initial_state).
Proof. split; vm_compute; reflexivity. Qed.

(** A block with a valid gene-cover line, an HSP line and then a gene-cover
    line that fails the pattern yields the record of the valid line. *)
Lemma gene_cover_failure_after_valid_match :
  kind Sample.bad_gene_line = KGene /\
  GENOMIC_MATCH_RE (PyStr.rstrip Sample.bad_gene_line) = None /\
  records (fst (parse_genblastA
    [Sample.start_line; Sample.query_line; Sample.gene_line; Sample.hsp_line0;
     Sample.bad_gene_line; Sample.hsp_line1; Sample.end_line]))
  = [{| pr_match := Sample.gene_match; pr_hsps := [(0, Sample.hsp0)] |}].
Proof. repeat split; vm_compute; reflexivity. Qed.

(** C2: a gene-cover line that fails the pattern starts no match and yields
    no record of its own: at that line the parser yields the match that was
    active before it, if there is one, logs the error and is left outside a
    record with no active match; the lines up to the next start marker are
    skipped and scanning resumes after it.  A block read from a clean state
    whose first gene-cover line fails yields no record. *)
Theorem malformed_gene_cover_aborts
    (st : parser_state) (line : string) (skipped : list string)
    (start : string) (rest : list string) :
  in_record st = true ->
  kind line = KGene ->
  GENOMIC_MATCH_RE (PyStr.rstrip line) = None ->
  Forall (fun l => PyStr.startswith START_STR l = false) skipped ->
  PyStr.startswith START_STR start = true ->
  let resumed := {| in_record := true; hsp_dict := carried st;
                    genomic_match := None; query_name := query_name st |} in
  step st line =
    (pending st ++ [LogError (GenomicRegexpFailed line)],
     inr (set_in_record false resumed)) /\
  run st (line :: skipped ++ start :: rest) =
    (pending st ++ LogError (GenomicRegexpFailed line) :: fst (run resumed rest),
     snd (run resumed rest)) /\
  (genomic_match st = None ->
   records (fst (run st (line :: skipped))) = []) /\
  (forall (st0 : parser_state) (start0 : string) (pre : list string),
   in_record st0 = false -> clean st0 ->
   PyStr.startswith START_STR start0 = true ->
   Forall (fun l => body_line l = true) pre ->
   records (fst (run st0 (start0 :: pre ++ line :: skipped))) = []).
Proof.
  intros Hin Hk Hre Hskip Hstart resumed.
  pose proof (step_gene_bad st line Hin Hk Hre) as Hstep.
  assert (Hrun : forall tail,
            run {| in_record := false; hsp_dict := carried st;
                   genomic_match := None; query_name := query_name st |}
                (skipped ++ tail) =
            (fst (run (set_in_record false resumed) tail),
             snd (run (set_in_record false resumed) tail))).
  { intros tail. erewrite run_app_ok by (apply run_skip; [reflexivity | exact Hskip]).
    reflexivity. }
  repeat split.
  - exact Hstep.
  - rewrite (run_cons_ok _ _ _ _ _ Hstep), Hrun.
    rewrite (run_cons_ok _ _ _ _ _
               (step_outside_start (set_in_record false resumed) start eq_refl Hstart)).
    cbn [fst snd app]. now rewrite <- app_assoc.
  - intros Hnone. rewrite (run_cons_ok _ _ _ _ _ Hstep).
    rewrite run_skip by (try reflexivity; exact Hskip).
    unfold pending. rewrite Hnone. reflexivity.
  - intros st0 start0 pre Hout [Hnone Hempty] Hstart0 Hpre.
    rewrite (run_cons_ok _ _ _ _ _ (step_outside_start st0 start0 Hout Hstart0)).
    erewrite run_app_ok by (apply run_body; [reflexivity | exact Hpre]).
    erewrite run_cons_ok by (apply step_gene_bad; [reflexivity | exact Hk | exact Hre]).
    rewrite run_skip by (try reflexivity; exact Hskip).
    cbn [fst snd app set_in_record genomic_match pending].
    rewrite Hnone. reflexivity.
Qed.

Lemma malformed_gene_cover_aborts_witness :
  run {| in_record := true; hsp_dict := [(0, Sample.hsp0)];
         genomic_match := Some Sample.gene_match; query_name := "QGENE" |}
      (Sample.bad_gene_line :: [Sample.hsp_line1; Sample.end_line]
         ++ Sample.start_line :: [Sample.gene_line2; Sample.end_line])
  = ([Yield {| pr_match := Sample.gene_match; pr_hsps := [(0, Sample.hsp0)] |};
      LogError (GenomicRegexpFailed Sample.bad_gene_line);
      Yield {| pr_match := Sample.gene_match2; pr_hsps := [] |}],
     inr initial_state).
Proof.
  pose proof (malformed_gene_cover_aborts
    {| in_record := true; hsp_dict := [(0, Sample.hsp0)];
       genomic_match := Some Sample.gene_match; query_name := "QGENE" |}
    Sample.bad_gene_line [Sample.hsp_line1; Sample.end_line]
    Sample.start_line [Sample.gene_line2; Sample.end_line]) as H.
  specialize (H eq_refl). specialize (H eq_refl). specialize (H eq_refl).
  specialize (H ltac:(repeat constructor)). specialize (H eq_refl).
  destruct H as (_ & H & _). rewrite H. vm_compute. reflexivity.
Defined.

(** ** The query name of a feature line *)

(** The query-name line of the block names [QGENE]; the feature line carries
    the prefix [OTHER] of the gene-cover line. *)
Lemma id_uses_gene_cover_prefix :
  snd (run initial_state
         [Sample.start_line; Sample.query_line; Sample.other_gene_line])
  = inr {| in_record := true; hsp_dict := [];
           genomic_match := Some Sample.other_match; query_name := "QGENE" |}
  /\
  main Sample.default_args
    [Sample.start_line; Sample.query_line; Sample.other_gene_line;
     Sample.hsp_line0; Sample.hsp_line1; Sample.end_line]
  = ([GFF_HEADER; Sample.other_feature_line], None).
Proof. split; vm_compute; reflexivity. Qed.

(** C3: a ParsedRecord holds the match and its HSP mapping only.  The query
    name tracked from the query-name lines reaches no record and no logged
    error, whatever its value; the match of every record is the one captured
    on a gene-cover line of the input, and the ID attribute of every feature
    line is made of the query-name prefix and the rank captured there. *)
Theorem id_attribute_from_gene_cover_line (args : Args) (input : list string) :
  (forall (st : parser_state) (q : string),
     fst (run (set_query_name q st) input) = fst (run st input)) /\
  (forall l : string, In l (feature_lines args input) ->
     exists (r : ParsedRecord) (gene : string),
       In r (records (fst (parse_genblastA input))) /\
       In gene input /\
       kind gene = KGene /\
       GENOMIC_MATCH_RE (PyStr.rstrip gene) = Some (pr_match r) /\
       l = (gm_match_name (pr_match r) ++ PyStr.TAB ++ "BLAST" ++ PyStr.TAB
            ++ "match" ++ PyStr.TAB ++ gm_match_start (pr_match r) ++ PyStr.TAB
            ++ gm_match_end (pr_match r) ++ PyStr.TAB ++ gm_score (pr_match r)
            ++ PyStr.TAB ++ gm_strand (pr_match r) ++ PyStr.TAB ++ "."
            ++ PyStr.TAB
            ++ ("ID=" ++ gm_query_name (pr_match r) ++ "_" ++ gm_rank (pr_match r))
            ++ PyStr.LF)%string).
Proof.
  split.
  - intros st q. apply run_query_unused.
  - intros l Hl. rewrite feature_lines_emit_all in Hl.
    apply emit_all_lines in Hl as (r & Hr & He).
    apply emit_wrote_line in He.
    destruct (run_matches_from_lines input initial_state r Hr)
      as [Hm|(gene & Hg & Hgm)]; [discriminate|].
    exists r, gene. repeat split; auto.
    + unfold gene_of_line in Hgm. destruct (kind gene); congruence.
    + unfold gene_of_line in Hgm. destruct (kind gene); congruence.
    + rewrite He. unfold gff_line, attributes. apply join_fields.
Qed.

(** ** Well-formed blocks *)

(** An HSP line before the gene-cover line of a well-formed block: its entry
    is in the mapping of the record, which has two entries although one HSP
    line lies between the gene-cover line and the end marker. *)
Lemma leading_hsp_line_joins_first_record :
  body_line Sample.hsp_line0 = true /\
  body_line Sample.hsp_line1 = true /\
  gene_of_line Sample.gene_line = Some Sample.gene_match /\
  dict_of (entries [Sample.hsp_line1]) [] = [(1, Sample.hsp1)] /\
  parse_genblastA
    [Sample.start_line; Sample.hsp_line0; Sample.gene_line; Sample.hsp_line1;
     Sample.end_line]
  = ([Yield {| pr_match := Sample.gene_match;
               pr_hsps := [(0, Sample.hsp0); (1, Sample.hsp1)] |}],
     inr initial_state).
Proof. repeat split; vm_compute; reflexivity. Qed.

(** C4: a well-formed block closed by an end marker and read from a clean
    state yields one record per gene-cover line, in order, each with the
    match of its line.  The mapping of a record holds exactly the entries of
    the HSP lines between its gene-cover line and the next gene-cover line
    or the end marker, and the first record also those of the HSP lines
    before the first gene-cover line; with distinct hsp_ids its size is the
    number of these HSP lines. *)
Theorem block_yields_one_record_per_gene_cover
    (start stop : string) (pre : list string) (gs : list segment)
    (st : parser_state) :
  in_record st = false -> clean st ->
  PyStr.startswith START_STR start = true ->
  PyStr.startswith END_STR stop = true ->
  Forall (fun l => body_line l = true) pre ->
  Forall segment_ok gs ->
  run st (block start pre gs stop) =
    (map Yield (block_records pre gs), inr initial_state) /\
  length (block_records pre gs) = length gs /\
  forall (i : nat) (g : segment), nth_error gs i = Some g ->
    let owned := match i with
                 | O => pre ++ seg_rest g
                 | S _ => seg_rest g
                 end in
    exists r : ParsedRecord,
      nth_error (block_records pre gs) i = Some r /\
      pr_match r = seg_match g /\
      pr_hsps r = dict_of (entries owned) [] /\
      (NoDup (map fst (entries owned)) ->
       length (pr_hsps r) = length (hsp_lines owned)).
Proof.
  intros Hout Hclean Hstart Hstop Hpre Hgs.
  split; [apply run_block; auto using kind_end|].
  split; [destruct gs; cbn; [reflexivity | now rewrite length_map]|].
  intros i g Hi owned.
  assert (Hg : segment_ok g).
  { apply nth_error_In in Hi. rewrite Forall_forall in Hgs. now apply Hgs. }
  assert (Hbody : Forall (fun l => body_line l = true) owned).
  { destruct Hg as [_ Hrest]. subst owned. destruct i; [|exact Hrest].
    apply Forall_app. now split. }
  assert (Hsize : forall r, pr_hsps r = dict_of (entries owned) [] ->
            NoDup (map fst (entries owned)) ->
            length (pr_hsps r) = length (hsp_lines owned)).
  { intros r -> Hnd. now rewrite dict_of_size, entries_count. }
  destruct gs as [|g0 gs]; [destruct i; discriminate|].
  destruct i as [|i]; cbn [nth_error block_records] in *.
  - injection Hi as ->. eexists. repeat split. now apply Hsize.
  - rewrite nth_error_map, Hi. cbn. eexists. repeat split. now apply Hsize.
Qed.

Lemma block_yields_one_record_per_gene_cover_witness :
  run initial_state
    (block Sample.start_line [Sample.query_line]
       [Sample.segment1; Sample.segment2] Sample.end_line)
  = ([Yield {| pr_match := Sample.gene_match;
               pr_hsps := [(0, Sample.hsp0); (1, Sample.hsp1)] |};
      Yield {| pr_match := Sample.gene_match2;
               pr_hsps := [(1, Sample.hsp1)] |}],
     inr initial_state).
Proof.
  pose proof (block_yields_one_record_per_gene_cover
    Sample.start_line Sample.end_line [Sample.query_line]
    [Sample.segment1; Sample.segment2] initial_state) as H.
  specialize (H eq_refl). specialize (H (conj eq_refl eq_refl)).
  specialize (H eq_refl). specialize (H eq_refl).
  specialize (H ltac:(repeat constructor)).
  specialize (H ltac:(repeat constructor)).
  destruct H as (H & _). rewrite H. vm_compute. reflexivity.
Defined.

(** ** The filter of the emitter *)

(** The value of a text of digits grows by one decimal place with each
    digit. *)
Lemma int_digits_snoc (t : string) (d : ascii) :
  forall acc : Z,
  PyStr.is_digit d = true ->
  PyNum.int_digits acc (t ++ String d EmptyString) =
  option_map (fun n => 10 * n + PyNum.digit_value d) (PyNum.int_digits acc t).
Proof.
  induction t as [|c t IH]; intros acc Hd; cbn.
  - now rewrite Hd.
  - destruct (PyStr.is_digit c); [now apply IH | reflexivity].
Qed.

(** The mean of line 76 in the operations of the library. *)
Lemma avg_perc_identity_binary64 (d : dict) :
  avg_perc_identity d =
  SFdiv 53 1024
    (fold_left (SFadd 53 1024) (map (fun kv => perc_id (snd kv)) d)
       (S754_zero false))
    (binary_normalize 53 1024 (Z.of_nat (length d)) 0 false).
Proof. reflexivity. Qed.

(** Two records on which the filter does not follow the three conditions
    read as numbers.  The first has an end coordinate of 4301 digits: the
    binary64 mean and the coverage pass the default thresholds and the
    coordinates are far more than 100 apart, yet [int] raises ValueError and
    no line is written.  The second has perc_id values 79.99999999999999,
    80.0 and 80.0, whose mean is below 80: the sum rounds to 240.0 and the
    line is written under the default threshold 80.0. *)
Lemma filter_departs_from_exact_conditions :
  GENOMIC_MATCH_RE (PyStr.rstrip Sample.long_gene_line) = Some Sample.long_match /\
  SFleb (min_perc_identity Sample.default_args)
    (SFdiv 53 1024
       (fold_left (SFadd 53 1024)
          [perc_id Sample.hsp0; perc_id Sample.hsp1] (S754_zero false))
       (binary_normalize 53 1024 2 0 false)) = true /\
  option_map (SFleb (min_perc_coverage Sample.default_args))
    (PyNum.py_float (gm_coverage_perc Sample.long_match)) = Some true /\
  match PyNum.int_digits 0 (gm_match_start Sample.long_match),
        PyNum.int_digits 0 (gm_match_end Sample.long_match) with
  | Some s, Some e => min_match_length Sample.default_args <=? Z.abs (e - s)
  | _, _ => false
  end = true /\
  write_gff_line Sample.default_args Sample.long_match
    [(0, Sample.hsp0); (1, Sample.hsp1)] "QGENE" = Raised ValueError /\
  write_gff_line Sample.default_args Sample.gene_match Sample.near_hsps "QGENE"
  = Wrote Sample.feature_line /\
  (exact_mean Sample.near_hsps
   < float_value (min_perc_identity Sample.default_args))%Q.
Proof.
  split; [vm_compute; reflexivity|]. split; [vm_compute; reflexivity|].
  split; [vm_compute; reflexivity|]. split; [vm_compute; reflexivity|].
  split; [vm_compute; reflexivity|]. split; [vm_compute; reflexivity|].
  vm_compute. reflexivity.
Qed.

(** C5: for a match of the gene-cover pattern and a mapping that is not
    empty, [write_gff_line] writes a line exactly when the binary64 mean of
    the perc_id values (added from left to right in the order of the
    mapping, starting from zero, then divided by their count) is at least
    min_perc_identity, [float] accepts the coverage text and its value is at
    least min_perc_coverage, and both coordinates have at most 4300 digits
    and are at least min_match_length apart; the line holds the
    tab-separated fields match_name, BLAST, match, match_start, match_end,
    score, strand, a point and ID=<query_name>_<rank>, each as captured,
    and a line feed. *)
Theorem write_gff_line_filter
    (args : Args) (line : string) (m : GenomicMatch) (hsps : dict)
    (query_name : string) :
  GENOMIC_MATCH_RE line = Some m ->
  hsps <> [] ->
  exists s e : Z,
    PyNum.int_digits 0 (gm_match_start m) = Some s /\
    PyNum.int_digits 0 (gm_match_end m) = Some e /\
    forall out : string,
      write_gff_line args m hsps query_name = Wrote out <->
      (SFleb (min_perc_identity args)
         (SFdiv 53 1024
            (fold_left (SFadd 53 1024) (map (fun kv => perc_id (snd kv)) hsps)
               (S754_zero false))
            (binary_normalize 53 1024 (Z.of_nat (length hsps)) 0 false))
       = true /\
       (exists cov : spec_float,
          PyNum.py_float (gm_coverage_perc m) = Some cov /\
          SFleb (min_perc_coverage args) cov = true) /\
       Z.of_nat (String.length (gm_match_start m)) <= 4300 /\
       Z.of_nat (String.length (gm_match_end m)) <= 4300 /\
       min_match_length args <= Z.abs (e - s) /\
       out = (gm_match_name m ++ PyStr.TAB ++ "BLAST" ++ PyStr.TAB ++ "match"
              ++ PyStr.TAB ++ gm_match_start m ++ PyStr.TAB ++ gm_match_end m
              ++ PyStr.TAB ++ gm_score m ++ PyStr.TAB ++ gm_strand m
              ++ PyStr.TAB ++ "." ++ PyStr.TAB
              ++ ("ID=" ++ query_name ++ "_" ++ gm_rank m)
              ++ PyStr.LF)%string).
Proof.
  intros Hm Hne.
  destruct (genomic_match_coordinates line m Hm) as (s & e & Hs & He & Hps & Hpe).
  exists s, e. split; [exact Hs|]. split; [exact He|]. intros out.
  rewrite <- avg_perc_identity_binary64.
  unfold write_gff_line. rewrite Hps, Hpe.
  unfold PyNum.within_limit, PyNum.int_max_str_digits, PyNum.fge.
  destruct hsps as [|kv hsps]; [contradiction|]. cbn [length].
  set (avg := avg_perc_identity (kv :: hsps)).
  destruct (Z.leb_spec (Z.of_nat (String.length (gm_match_end m))) 4300)
    as [Le|Le];
    destruct (Z.leb_spec (Z.of_nat (String.length (gm_match_start m))) 4300)
      as [Ls|Ls];
    try (split; [discriminate | intros (_ & _ & ? & ? & _); lia]).
  destruct (PyNum.py_float (gm_coverage_perc m)) as [cov|];
    [|split; [discriminate | intros (_ & (c & Hc & _) & _); discriminate]].
  destruct (SFleb (min_perc_identity args) avg) eqn:Hid;
    [|split; [discriminate | intros (Hc & _); discriminate]].
  destruct (SFleb (min_perc_coverage args) cov) eqn:Hcov;
    [|split; [discriminate
             | intros (_ & (c & Hc & Hc') & _); injection Hc as <-; congruence]].
  cbn [andb].
  destruct (Z.leb_spec (min_match_length args) (Z.abs (e - s))) as [Hl|Hl];
    [|split; [discriminate | intros (_ & _ & _ & _ & ? & _); lia]].
  split.
  - intros H. injection H as <-. repeat split; auto.
    + now exists cov.
    + unfold gff_line, attributes. apply join_fields.
  - intros (_ & _ & _ & _ & _ & ->). f_equal.
    unfold gff_line, attributes. apply join_fields.
Qed.

Lemma write_gff_line_filter_witness :
  write_gff_line Sample.default_args Sample.gene_match
    [(0, Sample.hsp0); (1, Sample.hsp1)] "QGENE"
  = Wrote Sample.feature_line.
Proof.
  pose proof (write_gff_line_filter Sample.default_args
    (PyStr.rstrip Sample.gene_line) Sample.gene_match
    [(0, Sample.hsp0); (1, Sample.hsp1)] "QGENE") as H.
  specialize (H eq_refl). specialize (H ltac:(discriminate)).
  destruct H as (s & e & Hs & He & H).
  vm_compute in Hs, He. injection Hs as <-. injection He as <-.
  apply H. repeat split.
  - exists (Sample.float_of "95.0"). split; vm_compute; reflexivity.
  - vm_compute. discriminate.
  - vm_compute. discriminate.
  - vm_compute. discriminate.
Defined.

(** C7: raising one of min_perc_identity, min_perc_coverage and
    min_match_length, the other two unchanged, never increases the number
    of feature lines written for an input. *)
Theorem raising_threshold_never_adds_lines (a a' : Args) (input : list string) :
  raised a a' ->
  (length (feature_lines a' input) <= length (feature_lines a input))%nat.
Proof.
  intros Hr. rewrite !feature_lines_emit_all. now apply emit_all_monotone.
Qed.

Lemma raising_threshold_never_adds_lines_witness :
  (length (feature_lines
             {| min_perc_coverage := Sample.float_of "96.0";
                min_match_length := 100;
                min_perc_identity := Sample.float_of "80.0" |}
             [Sample.start_line; Sample.query_line; Sample.gene_line;
              Sample.hsp_line0; Sample.hsp_line1; Sample.end_line])
   <= length (feature_lines Sample.default_args
             [Sample.start_line; Sample.query_line; Sample.gene_line;
              Sample.hsp_line0; Sample.hsp_line1; Sample.end_line]))%nat.
Proof.
  apply raising_threshold_never_adds_lines.
  right. left.
  split; [reflexivity | split; [vm_compute; reflexivity | reflexivity]].
Defined.

(** ** A match without HSP lines *)




(** ** The end of the input *)

(** C8: when the input ends after a gene-cover line with no end marker and
    no further gene-cover line behind it, the match of that line is still
    active and has not been yielded: the run yields what finalising the
    match before that line yields, and nothing else.  A step yields a
    record only on an end marker or a gene-cover line, and then the match
    that was active before the line. *)
Theorem unterminated_match_not_emitted
    (st : parser_state) (gene : string) (m : GenomicMatch) (rest : list string) :
  in_record st = true ->
  gene_of_line gene = Some m ->
  Forall (fun l => is_boundary l = false) rest ->
  records (fst (run st (gene :: rest))) = records (pending st) /\
  (forall st', snd (run st (gene :: rest)) = inr st' ->
               genomic_match st' = Some m) /\
  (forall (s : parser_state) (l : string),
     records (fst (step s l)) <> [] ->
     in_record s = true /\ is_boundary l = true /\
     records (fst (step s l)) = records (pending s)).
Proof.
  intros Hin Hg Hrest.
  rewrite (run_cons_ok _ _ _ _ _ (step_gene_ok st gene Hin m Hg)).
  cbn [fst snd].
  match goal with
  | |- context [run ?s rest] => destruct (run_quiet rest s Hrest) as [Hr Hm]
  end.
  repeat split.
  - rewrite records_app, Hr. apply app_nil_r.
  - intros st' H. now rewrite (Hm st' H).
  - destruct (step_yields_pending s l) as [He|(H1 & _ & _)]; [contradiction | exact H1].
  - destruct (step_yields_pending s l) as [He|(_ & H2 & _)]; [contradiction | exact H2].
  - destruct (step_yields_pending s l) as [He|(_ & _ & H3)]; [contradiction | exact H3].
Qed.

Lemma unterminated_match_not_emitted_witness :
  records (fst (run (set_in_record true initial_state)
                  (Sample.gene_line :: [Sample.hsp_line0; Sample.hsp_line1])))
  = [].
Proof.
  pose proof (unterminated_match_not_emitted
    (set_in_record true initial_state) Sample.gene_line Sample.gene_match
    [Sample.hsp_line0; Sample.hsp_line1]) as H.
  specialize (H eq_refl). specialize (H eq_refl).
  specialize (H ltac:(repeat constructor)).
  destruct H as [H _]. exact H.
Defined.

(** C9: an HSP line matches the HSP pattern when its pid text is [1.2.3],
    which is no number: the conversion raises ValueError, the generator ends
    with it, and so does the program. *)
Theorem float_error_leaves_parser :
  HSP_RE (PyStr.rstrip Sample.bad_pid_line) =
    Some {| hm_hsp_id := "0"; hm_match_start := "1"; hm_match_end := "2";
            hm_query_start := "1"; hm_query_end := "2";
            hm_perc_id := "1.2.3" |} /\
  PyNum.py_float "1.2.3" = None /\
  parse_genblastA [Sample.start_line; Sample.bad_pid_line] = ([], inl ValueError) /\
  main Sample.default_args [Sample.start_line; Sample.bad_pid_line]
  = ([GFF_HEADER], Some ValueError).
Proof. repeat split; vm_compute; reflexivity. Qed.

(** ** HSP lines before the first gene-cover line *)

(** C10: an HSP line before any gene-cover line of a block that is given up
    at a malformed gene-cover line: no match follows in the block and its
    end marker is skipped, yet the entry is not dropped; it is in the record
    of the next block. *)
Theorem leading_hsp_entry_survives_abort :
  parse_genblastA
    [Sample.start_line; Sample.hsp_line0; Sample.bad_gene_line; Sample.end_line;
     Sample.start_line; Sample.gene_line; Sample.end_line]
  = ([LogError (GenomicRegexpFailed Sample.bad_gene_line);
      Yield {| pr_match := Sample.gene_match; pr_hsps := [(0, Sample.hsp0)] |}],
     inr initial_state).
Proof. vm_compute. reflexivity. Qed.

(** X16: in a block read from a clean state, the well-formed lines before
    the first gene-cover line are read without a logged error or an
    exception and the entries of the HSP lines among them stay in the
    working mapping; they are dropped when the end marker comes first, and
    when well-formed segments follow they are in the mapping of the first
    record the block yields, under the entries of the HSP lines that follow
    its gene-cover line, every leading hsp_id being a key of it. *)
Theorem leading_hsp_lines_kept
    (start stop : string) (pre : list string) (st : parser_state) :
  in_record st = false -> clean st ->
  PyStr.startswith START_STR start = true ->
  PyStr.startswith END_STR stop = true ->
  Forall (fun l => body_line l = true) pre ->
  run st (start :: pre) =
    ([], inr {| in_record := true;
                hsp_dict := dict_of (entries pre) [];
                genomic_match := None;
                query_name := tracked_query (query_name st) pre |}) /\
  run st (start :: pre ++ [stop]) = ([], inr initial_state) /\
  (forall (g : segment) (gs : list segment),
     Forall segment_ok (g :: gs) ->
     exists (r : ParsedRecord) (rs : list ParsedRecord),
       fst (run st (block start pre (g :: gs) stop)) = map Yield (r :: rs) /\
       pr_match r = seg_match g /\
       pr_hsps r = dict_of (entries (seg_rest g)) (dict_of (entries pre) []) /\
       forall k : Z, In k (map fst (entries pre)) -> In k (map fst (pr_hsps r))).
Proof.
  intros Hout [Hnone Hempty] Hstart Hstop Hpre.
  pose proof (step_outside_start st start Hout Hstart) as Hs.
  assert (Hbody : run (set_in_record true st) pre =
            ([], inr {| in_record := true;
                        hsp_dict := dict_of (entries pre) [];
                        genomic_match := None;
                        query_name := tracked_query (query_name st) pre |})).
  { rewrite run_body by (try reflexivity; exact Hpre).
    cbn [set_in_record hsp_dict genomic_match query_name].
    now rewrite Hnone, Hempty. }
  repeat split.
  - rewrite (run_cons_ok _ _ _ _ _ Hs), Hbody. reflexivity.
  - rewrite (run_cons_ok _ _ _ _ _ Hs), (run_app_ok _ _ _ _ _ Hbody).
    erewrite run_cons_ok by (apply step_end; [reflexivity | now apply kind_end]).
    reflexivity.
  - intros g gs Hgs.
    exists (segment_record pre g), (map (segment_record []) gs).
    rewrite run_block; auto using kind_end; [|now split].
    cbn [fst block_records].
    rewrite (segment_record_carried pre g). cbn [pr_match pr_hsps].
    split; [reflexivity|]. split; [reflexivity|]. split; [reflexivity|].
    intros k Hk. now apply dict_of_keys_kept, dict_of_keys.
Qed.

Lemma leading_hsp_lines_kept_witness :
  run initial_state [Sample.start_line; Sample.hsp_line0; Sample.end_line]
  = ([], inr initial_state).
Proof.
  pose proof (leading_hsp_lines_kept Sample.start_line Sample.end_line
    [Sample.hsp_line0] initial_state) as H.
  specialize (H eq_refl). specialize (H (conj eq_refl eq_refl)).
  specialize (H eq_refl). specialize (H eq_refl).
  specialize (H ltac:(repeat constructor)).
  destruct H as (_ & H & _). exact H.
Defined.

(** ** The patterns, both ways *)

Lemma append_nil_r (s : string) : (s ++ EmptyString)%string = s.
Proof. induction s as [|c s IH]; cbn; [reflexivity | now rewrite IH]. Qed.

Lemma strip_prefix_spec (t : string) :
  forall s s' : string, Re.strip_prefix t s = Some s' -> s = (t ++ s')%string.
Proof.
  induction t as [|a t IH]; intros s s' H; cbn in *.
  - now injection H as ->.
  - destruct s as [|b s]; [discriminate|].
    destruct (Ascii.eqb_spec a b) as [->|]; [|discriminate].
    now rewrite (IH _ _ H).
Qed.

Lemma strip_prefix_app (t s : string) :
  Re.strip_prefix t (t ++ s) = Some s.
Proof.
  induction t as [|a t IH]; cbn; [reflexivity|].
  now rewrite Ascii.eqb_refl.
Qed.

Lemma at_end_cases (tail : string) :
  Re.at_end tail = true <-> tail = EmptyString \/ tail = PyStr.LF.
Proof.
  split.
  - destruct tail as [|c [|? ?]]; cbn; try discriminate; auto.
    intros H. apply Ascii.eqb_eq in H. subst. now right.
  - intros [->| ->]; reflexivity.
Qed.

(** What a greedy repetition captures and what it leaves make up the text
    it was given. *)
Lemma greedy_consumes (cls : ascii -> bool) (k : string -> option (list string))
    (s : string) :
  forall (least : nat) (taken : string) (r : list string),
  Re.greedy cls k least taken s = Some r ->
  exists (t rest : string) (r' : list string),
    r = (taken ++ t)%string :: r' /\ k rest = Some r' /\ s = (t ++ rest)%string.
Proof.
  induction s as [|x s IH]; intros least taken r H.
  - cbn in H. destruct least; [|discriminate].
    destruct (k EmptyString) as [r'|] eqn:Hk; [|discriminate].
    injection H as <-. exists EmptyString, EmptyString, r'.
    now rewrite append_nil_r.
  - cbn [Re.greedy] in H.
    assert (Hstop : match least with
                    | O => option_map (cons taken) (k (String x s))
                    | S _ => None
                    end = Some r ->
            exists (t rest : string) (r' : list string),
              r = (taken ++ t)%string :: r' /\ k rest = Some r' /\
              String x s = (t ++ rest)%string).
    { intros H'. destruct least; [|discriminate].
      destruct (k (String x s)) as [r'|] eqn:Hk; [|discriminate].
      injection H' as <-. exists EmptyString, (String x s), r'.
      now rewrite append_nil_r. }
    destruct (cls x); [|now apply Hstop].
    destruct (Re.greedy cls k (Nat.pred least) (taken ++ String x EmptyString) s)
      as [r0|] eqn:Hg; [|now apply Hstop].
    injection H as <-.
    destruct (IH _ _ _ Hg) as (t & rest & r' & -> & Hk & ->).
    exists (String x t), rest, r'. repeat split; auto.
    now rewrite append_assoc.
Qed.

(** A repetition followed by a text that does not go on with its class
    takes all of its characters at once. *)
Lemma greedy_exact (cls : ascii -> bool) (k : string -> option (list string))
    (rest : string) (r : list string) (t : string) :
  forall (least : nat) (taken : string),
  all_chars cls t = true -> stops cls rest = true ->
  (least <= String.length t)%nat -> k rest = Some r ->
  Re.greedy cls k least taken (t ++ rest) = Some ((taken ++ t)%string :: r).
Proof.
  induction t as [|c t IH]; intros least taken Ht Hstop Hlen Hk.
  - cbn in Hlen. assert (least = 0%nat) as -> by lia.
    rewrite append_nil_r. cbn [append].
    destruct rest as [|x rest]; cbn [Re.greedy].
    + now rewrite Hk.
    + cbn in Hstop. apply negb_true_iff in Hstop. rewrite Hstop.
      now rewrite Hk.
  - cbn in Ht. apply andb_true_iff in Ht as [Hc Ht].
    cbn [append Re.greedy]. rewrite Hc.
    rewrite (IH (Nat.pred least) (taken ++ String c EmptyString)%string);
      auto; [|cbn in Hlen; lia].
    now rewrite append_assoc.
Qed.

Lemma rmatch_groups_fit (p : list Re.item) :
  forall (s : string) (caps : list string),
  Re.rmatch p s = Some caps -> groups_fit p caps = true.
Proof.
  induction p as [|[t|cls q] p IH]; intros s caps H; cbn [Re.rmatch] in H.
  - destruct (Re.at_end s); [|discriminate]. now injection H as <-.
  - cbn. destruct (Re.strip_prefix t s); [eauto | discriminate].
  - destruct q.
    + apply greedy_captures in H as (c & rest & r' & -> & Hk & Hc & Hlen);
        [|reflexivity].
      cbn. rewrite Hc, (IH _ _ Hk). reflexivity.
    + apply greedy_captures in H as (c & rest & r' & -> & Hk & Hc & Hlen);
        [|reflexivity].
      cbn. rewrite Hc, (IH _ _ Hk). cbn in Hlen.
      destruct (String.length c); [lia | reflexivity].
    + destruct s as [|x s]; [discriminate|].
      destruct (cls x) eqn:Hx; [|discriminate].
      destruct (Re.rmatch p s) as [r'|] eqn:Hr; [|discriminate].
      injection H as <-. cbn. now rewrite Hx, (IH _ _ Hr).
Qed.

(** A match is the text of its groups between the literals of the pattern,
    up to the end or to a final line feed. *)
Lemma rmatch_assembles (p : list Re.item) :
  forall (s : string) (caps : list string),
  Re.rmatch p s = Some caps ->
  exists tail : string, Re.at_end tail = true /\ s = assemble p caps tail.
Proof.
  induction p as [|[t|cls q] p IH]; intros s caps H; cbn [Re.rmatch] in H.
  - destruct (Re.at_end s) eqn:He; [|discriminate]. injection H as <-.
    now exists s.
  - destruct (Re.strip_prefix t s) as [s'|] eqn:Hs; [|discriminate].
    destruct (IH _ _ H) as (tail & He & ->).
    exists tail. split; [exact He|]. cbn. now apply strip_prefix_spec.
  - destruct q.
    + apply greedy_consumes in H as (c & rest & r' & -> & Hk & ->).
      destruct (IH _ _ Hk) as (tail & He & ->). now exists tail.
    + apply greedy_consumes in H as (c & rest & r' & -> & Hk & ->).
      destruct (IH _ _ Hk) as (tail & He & ->). now exists tail.
    + destruct s as [|x s]; [discriminate|].
      destruct (cls x); [|discriminate].
      destruct (Re.rmatch p s) as [r'|] eqn:Hr; [|discriminate].
      injection H as <-.
      destruct (IH _ _ Hr) as (tail & He & ->). now exists tail.
Qed.

(** The text assembled from fitting, delimited groups matches, with these
    groups. *)
Lemma rmatch_of_assembled (p : list Re.item) (tail : string) :
  Re.at_end tail = true ->
  forall caps : list string,
  groups_fit p caps = true -> delimited p caps tail = true ->
  Re.rmatch p (assemble p caps tail) = Some caps.
Proof.
  intros He. induction p as [|[t|cls q] p IH]; intros caps Hf Hd.
  - destruct caps; [|discriminate]. cbn. now rewrite He.
  - cbn in *. rewrite strip_prefix_app. now apply IH.
  - destruct caps as [|c caps]; [discriminate|].
    cbn [groups_fit delimited assemble] in *.
    apply andb_true_iff in Hf as [Hf Hrest].
    apply andb_true_iff in Hf as [Hc Hq].
    apply andb_true_iff in Hd as [Hstop Hd].
    specialize (IH caps Hrest Hd).
    destruct q; cbn [Re.rmatch].
    + rewrite (greedy_exact cls _ _ caps c 0 EmptyString); auto. lia.
    + rewrite (greedy_exact cls _ _ caps c 1 EmptyString); auto.
      now apply Nat.leb_le.
    + destruct c as [|x [|? ?]]; try discriminate.
      cbn in *. apply andb_true_iff in Hc as [-> _]. now rewrite IH.
Qed.

Lemma number_text_fits (s : string) :
  number_text s = all_chars Re.digit s && Nat.leb 1 (String.length s).
Proof.
  unfold number_text. destruct s; cbn; [reflexivity | now rewrite andb_true_r].
Qed.

Lemma nonempty_leb (s : string) : nonempty s = Nat.leb 1 (String.length s).
Proof. now destruct s. Qed.

Lemma strand_fits (s : string) :
  all_chars Re.sign s && Nat.eqb (String.length s) 1
  = String.eqb s "+" || String.eqb s "-".
Proof.
  destruct s as [|c [|d s]]; cbn.
  - reflexivity.
  - unfold Re.sign, Re.is_char. rewrite !andb_true_r.
    now destruct (Ascii.eqb c "+"), (Ascii.eqb c "-").
  - rewrite !andb_false_r.
    now destruct (Ascii.eqb c "+"), (Ascii.eqb c "-").
Qed.

Lemma genomic_fields_fit (m : GenomicMatch) :
  groups_fit GENOMIC_MATCH_PATTERN (genomic_groups m) = genomic_fields_ok m.
Proof.
  unfold genomic_fields_ok. rewrite !number_text_fits, !nonempty_leb, <- strand_fits.
  destruct m. cbn. btauto.
Qed.

Lemma hsp_fields_fit (m : HspMatch) :
  groups_fit HSP_PATTERN (hsp_groups m) = hsp_fields_ok m.
Proof.
  unfold hsp_fields_ok. rewrite !number_text_fits, !nonempty_leb.
  destruct m. cbn. btauto.
Qed.

Lemma genomic_assembled (m : GenomicMatch) (tail : string) :
  assemble GENOMIC_MATCH_PATTERN (genomic_groups m) tail
  = (format_genomic m ++ tail)%string.
Proof.
  unfold format_genomic. destruct m. cbn.
  repeat (rewrite append_assoc; cbn). reflexivity.
Qed.

Lemma hsp_assembled (m : HspMatch) (tail : string) :
  assemble HSP_PATTERN (hsp_groups m) tail = (format_hsp m ++ tail)%string.
Proof.
  unfold format_hsp. destruct m. cbn.
  repeat (rewrite append_assoc; cbn). reflexivity.
Qed.

Lemma genomic_delimited (m : GenomicMatch) (tail : string) :
  Re.at_end tail = true ->
  delimited GENOMIC_MATCH_PATTERN (genomic_groups m) tail = true.
Proof.
  intros H. apply at_end_cases in H as [-> | ->]; destruct m; reflexivity.
Qed.

Lemma hsp_delimited (m : HspMatch) (tail : string) :
  Re.at_end tail = true ->
  delimited HSP_PATTERN (hsp_groups m) tail = true.
Proof.
  intros H. apply at_end_cases in H as [-> | ->]; destruct m; reflexivity.
Qed.

Lemma genomic_match_groups (s : string) (m : GenomicMatch) :
  GENOMIC_MATCH_RE s = Some m <->
  Re.rmatch GENOMIC_MATCH_PATTERN s = Some (genomic_groups m).
Proof.
  unfold GENOMIC_MATCH_RE. split.
  - destruct (Re.rmatch GENOMIC_MATCH_PATTERN s) as [caps|] eqn:H; [|discriminate].
    pose proof (rmatch_groups_fit _ _ _ H) as Hf.
    destruct caps as [|q [|n [|st [|en [|sd [|cn [|cp [|sc [|rk [|? ?]]]]]]]]]];
      try discriminate.
    intros Hm. now injection Hm as <-.
  - intros ->. now destruct m.
Qed.

Lemma hsp_match_groups (s : string) (m : HspMatch) :
  HSP_RE s = Some m <-> Re.rmatch HSP_PATTERN s = Some (hsp_groups m).
Proof.
  unfold HSP_RE. split.
  - destruct (Re.rmatch HSP_PATTERN s) as [caps|] eqn:H; [|discriminate].
    pose proof (rmatch_groups_fit _ _ _ H) as Hf.
    destruct caps as [|i [|ms [|me [|qs [|qe [|p [|? ?]]]]]]]; try discriminate.
    intros Hm. now injection Hm as <-.
  - intros ->. now destruct m.
Qed.

Lemma rstrip_spaces (w : string) :
  all_chars PyStr.is_space w = true -> PyStr.rstrip w = EmptyString.
Proof.
  induction w as [|c w IH]; cbn; [reflexivity|].
  intros H. apply andb_true_iff in H as [Hc Hw]. now rewrite (IH Hw), Hc.
Qed.

Lemma rstrip_keeps (d : ascii) (w : string) :
  PyStr.is_space d = false -> all_chars PyStr.is_space w = true ->
  forall b : string,
  PyStr.rstrip ((b ++ String d EmptyString) ++ w) = (b ++ String d EmptyString)%string.
Proof.
  intros Hd Hw. induction b as [|x b IH].
  - cbn. now rewrite (rstrip_spaces w Hw), Hd.
  - cbn [append PyStr.rstrip]. rewrite IH. now destruct b.
Qed.

Lemma last_char (cls : ascii -> bool) (s : string) :
  nonempty s = true -> all_chars cls s = true ->
  exists (init : string) (d : ascii),
    s = (init ++ String d EmptyString)%string /\ cls d = true.
Proof.
  induction s as [|c s IH]; [discriminate|].
  intros _ H. cbn in H. apply andb_true_iff in H as [Hc Hs].
  destruct s as [|c' s'].
  - now exists EmptyString, c.
  - destruct (IH eq_refl Hs) as (init & d & -> & Hd).
    now exists (String c init), d.
Qed.

Lemma digit_dot_not_space (c : ascii) :
  Re.digit_dot c = true -> PyStr.is_space c = false.
Proof.
  destruct c as [[] [] [] [] [] [] [] []]; cbv; intros H;
    try discriminate H; reflexivity.
Qed.

Lemma digit_is_digit_dot (s : string) :
  all_chars Re.digit s = true -> all_chars Re.digit_dot s = true.
Proof.
  induction s as [|c s IH]; [reflexivity|]. cbn [all_chars].
  intros H. apply andb_true_iff in H as [Hc Hs].
  rewrite (IH Hs). unfold Re.digit_dot. now rewrite Hc.
Qed.

(** Trailing white space after a text that ends in a digit or a point is
    all that [rstrip] removes. *)
Lemma rstrip_after_number (a n w : string) :
  nonempty n = true -> all_chars Re.digit_dot n = true ->
  all_chars PyStr.is_space w = true ->
  PyStr.rstrip ((a ++ n) ++ w) = (a ++ n)%string.
Proof.
  intros Hn Hc Hw.
  destruct (last_char _ _ Hn Hc) as (init & d & -> & Hd).
  rewrite <- (append_assoc a init).
  apply rstrip_keeps; [now apply digit_dot_not_space | exact Hw].
Qed.

Lemma genomic_match_of_format (m : GenomicMatch) (tail : string) :
  genomic_fields_ok m = true -> Re.at_end tail = true ->
  GENOMIC_MATCH_RE (format_genomic m ++ tail) = Some m.
Proof.
  intros Hok He. rewrite <- genomic_fields_fit in Hok.
  apply genomic_match_groups. rewrite <- genomic_assembled.
  apply rmatch_of_assembled; auto using genomic_delimited.
Qed.

Lemma hsp_match_of_format (m : HspMatch) (tail : string) :
  hsp_fields_ok m = true -> Re.at_end tail = true ->
  HSP_RE (format_hsp m ++ tail) = Some m.
Proof.
  intros Hok He. rewrite <- hsp_fields_fit in Hok.
  apply hsp_match_groups. rewrite <- hsp_assembled.
  apply rmatch_of_assembled; auto using hsp_delimited.
Qed.

Lemma contains_unfold (sub line : string) :
  PyStr.contains sub line =
  PyStr.startswith sub line ||
  match line with
  | EmptyString => false
  | String _ line' => PyStr.contains sub line'
  end.
Proof. now destruct line. Qed.

Lemma startswith_self_app (p rest : string) :
  PyStr.startswith p (p ++ rest) = true.
Proof.
  induction p as [|a p IH]; cbn; [reflexivity|].
  now rewrite Ascii.eqb_refl, IH.
Qed.

Lemma contains_app (sub a b : string) :
  PyStr.contains sub (a ++ sub ++ b) = true.
Proof.
  induction a as [|c a IH].
  - cbn [append]. rewrite contains_unfold, startswith_self_app. reflexivity.
  - cbn [append]. rewrite contains_unfold, IH. apply orb_true_r.
Qed.

Lemma contains_needs_first (x : ascii) (sub line : string) :
  all_chars (Re.other_than x) line = true ->
  PyStr.contains (String x sub) line = false.
Proof.
  induction line as [|c line IH]; [reflexivity|].
  cbn [all_chars]. intros H. apply andb_true_iff in H as [Hc Hl].
  rewrite contains_unfold, (IH Hl). cbn [PyStr.startswith].
  unfold Re.other_than in Hc. apply negb_true_iff in Hc.
  rewrite Ascii.eqb_sym, Hc. reflexivity.
Qed.

Lemma all_chars_app (cls : ascii -> bool) (a b : string) :
  all_chars cls (a ++ b) = all_chars cls a && all_chars cls b.
Proof.
  induction a as [|c a IH]; cbn; [reflexivity|].
  now rewrite IH, andb_assoc.
Qed.

Lemma all_chars_weaken (cls cls' : ascii -> bool) (s : string) :
  (forall c, cls c = true -> cls' c = true) ->
  all_chars cls s = true -> all_chars cls' s = true.
Proof.
  intros Hsub. induction s as [|c s IH]; [reflexivity|].
  cbn [all_chars]. intros H. apply andb_true_iff in H as [Hc Hs].
  now rewrite (Hsub c Hc), (IH Hs).
Qed.

Lemma digit_dot_not_g (c : ascii) :
  Re.digit_dot c = true -> Re.other_than "g" c = true.
Proof.
  destruct c as [[] [] [] [] [] [] [] []]; cbv; intros H;
    try discriminate H; reflexivity.
Qed.

Lemma space_not_g (c : ascii) :
  PyStr.is_space c = true -> Re.other_than "g" c = true.
Proof.
  destruct c as [[] [] [] [] [] [] [] []]; cbv; intros H;
    try discriminate H; reflexivity.
Qed.

Lemma number_text_not_g (s : string) :
  number_text s = true -> all_chars (Re.other_than "g") s = true.
Proof.
  unfold number_text. intros H. apply andb_true_iff in H as [_ H].
  apply all_chars_weaken with Re.digit_dot; [apply digit_dot_not_g|].
  now apply digit_is_digit_dot.
Qed.

Lemma genomic_match_after_rstrip (m : GenomicMatch) (w : string) :
  genomic_fields_ok m = true ->
  all_chars PyStr.is_space w = true ->
  GENOMIC_MATCH_RE (PyStr.rstrip (format_genomic m ++ w)) = Some m.
Proof.
  intros Hok Hw.
  assert (Hrank : number_text (gm_rank m) = true).
  { unfold genomic_fields_ok in Hok. now apply andb_true_iff in Hok as [_ ?]. }
  apply andb_true_iff in Hrank as [Hne Hdig].
  unfold format_genomic.
  repeat rewrite <- (append_assoc _ _ (gm_rank m)).
  rewrite rstrip_after_number; auto using digit_is_digit_dot.
  repeat rewrite append_assoc.
  fold (format_genomic m). rewrite <- (append_nil_r (format_genomic m)).
  now apply genomic_match_of_format.
Qed.

Lemma hsp_match_after_rstrip (m : HspMatch) (w : string) :
  hsp_fields_ok m = true ->
  all_chars PyStr.is_space w = true ->
  HSP_RE (PyStr.rstrip (format_hsp m ++ w)) = Some m.
Proof.
  intros Hok Hw.
  assert (Hpid : nonempty (hm_perc_id m) && all_chars Re.digit_dot (hm_perc_id m)
                 = true).
  { unfold hsp_fields_ok in Hok. now apply andb_true_iff in Hok as [_ ?]. }
  apply andb_true_iff in Hpid as [Hne Hdig].
  unfold format_hsp.
  repeat rewrite <- (append_assoc _ _ (hm_perc_id m)).
  rewrite rstrip_after_number; auto.
  repeat rewrite append_assoc.
  fold (format_hsp m). rewrite <- (append_nil_r (format_hsp m)).
  now apply hsp_match_of_format.
Qed.

Lemma formatted_gene_line_contains (m : GenomicMatch) (w : string) :
  PyStr.contains "gene cover" (format_genomic m ++ w) = true.
Proof.
  assert (E : (format_genomic m ++ w)%string =
              ((gm_query_name m ++ "|" ++ gm_match_name m ++ ":"
                ++ gm_match_start m ++ ".." ++ gm_match_end m ++ "|"
                ++ gm_strand m ++ "|")
               ++ "gene cover"
               ++ (":" ++ gm_coverage_num m ++ "(" ++ gm_coverage_perc m
                   ++ "%)|score:" ++ gm_score m ++ "|rank:" ++ gm_rank m ++ w))%string).
  { unfold format_genomic. cbn. repeat (rewrite append_assoc; cbn). reflexivity. }
  rewrite E. apply contains_app.
Qed.

Lemma formatted_hsp_line_no_gene_cover (m : HspMatch) (w : string) :
  hsp_fields_ok m = true ->
  all_chars PyStr.is_space w = true ->
  PyStr.contains "gene cover" (format_hsp m ++ w) = false.
Proof.
  intros Hok Hw. apply contains_needs_first.
  unfold hsp_fields_ok in Hok.
  apply andb_true_iff in Hok as [Hok Hp]. apply andb_true_iff in Hp as [_ Hp].
  apply andb_true_iff in Hok as [Hok H5].
  apply andb_true_iff in Hok as [Hok H4].
  apply andb_true_iff in Hok as [Hok H3].
  apply andb_true_iff in Hok as [H1 H2].
  unfold format_hsp. rewrite !all_chars_app.
  rewrite (number_text_not_g _ H1), (number_text_not_g _ H2),
    (number_text_not_g _ H3), (number_text_not_g _ H4), (number_text_not_g _ H5).
  rewrite (all_chars_weaken _ _ _ digit_dot_not_g Hp).
  rewrite (all_chars_weaken _ _ _ space_not_g Hw).
  reflexivity.
Qed.

(** ** The gene-cover pattern *)

(** X1: GENOMIC_MATCH_RE matches exactly the texts made of the nine fields
    between the literals of the pattern, possibly with one final line feed:
    a query name without a bar, a match name without a colon, start, end,
    coverage count and rank of one or more digits, a strand that is plus or
    minus, a coverage percentage of digits and points and a score of digits,
    points and minus signs, neither empty; and the groups are these fields. *)
Theorem genomic_pattern_exact (s : string) (m : GenomicMatch) :
  GENOMIC_MATCH_RE s = Some m <->
  genomic_fields_ok m = true /\
  (s = format_genomic m \/ s = (format_genomic m ++ PyStr.LF)%string).
Proof.
  rewrite genomic_match_groups. split.
  - intros H. split.
    + rewrite <- genomic_fields_fit. now apply rmatch_groups_fit with s.
    + apply rmatch_assembles in H as (tail & He & ->).
      rewrite genomic_assembled.
      apply at_end_cases in He as [-> | ->]; [left | right]; auto.
      apply append_nil_r.
  - intros [Hok Hs]. apply genomic_match_groups.
    destruct Hs as [-> | ->].
    + rewrite <- (append_nil_r (format_genomic m)).
      now apply genomic_match_of_format.
    + now apply genomic_match_of_format.
Qed.

(** X2: a gene-cover line written with fields the pattern allows and any
    white space behind it is matched, after [rstrip], with exactly these
    fields; inside a record, when it begins with neither the end marker nor
    the query-name marker, the parser takes it for a gene-cover line,
    yields the match that was active, if any, and makes these fields the
    active match. *)
Theorem formatted_gene_cover_line_matches (m : GenomicMatch) (w : string) :
  genomic_fields_ok m = true ->
  all_chars PyStr.is_space w = true ->
  GENOMIC_MATCH_RE (PyStr.rstrip (format_genomic m ++ w)) = Some m /\
  forall st : parser_state,
    in_record st = true ->
    PyStr.startswith END_STR (format_genomic m ++ w) = false ->
    PyStr.startswith QUERY_NAME_STR (format_genomic m ++ w) = false ->
    step st (format_genomic m ++ w)%string =
    (pending st,
     inr {| in_record := true; hsp_dict := carried st;
            genomic_match := Some m; query_name := query_name st |}).
Proof.
  intros Hok Hw.
  pose proof (genomic_match_after_rstrip m w Hok Hw) as Hre.
  split; [exact Hre|].
  intros st Hin Hend Hquery. apply step_gene_ok; [exact Hin|].
  unfold gene_of_line, kind.
  now rewrite Hend, Hquery, formatted_gene_line_contains.
Qed.

Lemma formatted_gene_cover_line_matches_witness :
  GENOMIC_MATCH_RE (PyStr.rstrip (format_genomic Sample.gene_match2 ++ PyStr.LF))
  = Some Sample.gene_match2.
Proof.
  apply formatted_gene_cover_line_matches; reflexivity.
Defined.

(** ** The HSP pattern *)

(** X3: HSP_RE matches exactly the texts HSP_ID[i]:(a-b);query:(c-d); pid: p
    with i, a, b, c and d of one or more digits and p a text of digits and
    points that is not empty, possibly with one final line feed; and the
    groups are these six fields. *)
Theorem hsp_pattern_exact (s : string) (m : HspMatch) :
  HSP_RE s = Some m <->
  hsp_fields_ok m = true /\
  (s = format_hsp m \/ s = (format_hsp m ++ PyStr.LF)%string).
Proof.
  split.
  - intros H. apply hsp_match_groups in H. split.
    + rewrite <- hsp_fields_fit. now apply rmatch_groups_fit with s.
    + apply rmatch_assembles in H as (tail & He & ->).
      rewrite hsp_assembled.
      apply at_end_cases in He as [-> | ->]; [left | right]; auto.
      apply append_nil_r.
  - intros [Hok [-> | ->]].
    + rewrite <- (append_nil_r (format_hsp m)). now apply hsp_match_of_format.
    + now apply hsp_match_of_format.
Qed.

(** X4: an HSP line written with fields the pattern allows and any white
    space behind it is matched, after [rstrip], with exactly these fields;
    inside a record the parser takes it for an HSP line and stores its entry
    under its hsp_id, or raises ValueError, which it does exactly when
    [float] rejects the pid text or one of the five integer fields has more
    than 4300 digits. *)
Theorem formatted_hsp_line_matches (m : HspMatch) (w : string) :
  hsp_fields_ok m = true ->
  all_chars PyStr.is_space w = true ->
  HSP_RE (PyStr.rstrip (format_hsp m ++ w)) = Some m /\
  (hsp_entry m = None <->
   PyNum.py_float (hm_perc_id m) = None \/
   4300 < Z.of_nat (String.length (hm_hsp_id m)) \/
   4300 < Z.of_nat (String.length (hm_match_start m)) \/
   4300 < Z.of_nat (String.length (hm_match_end m)) \/
   4300 < Z.of_nat (String.length (hm_query_start m)) \/
   4300 < Z.of_nat (String.length (hm_query_end m))) /\
  forall st : parser_state,
    in_record st = true ->
    step st (format_hsp m ++ w)%string =
    match hsp_entry m with
    | Some (k, h) => ([], inr (set_hsp_dict (dict_set k h (hsp_dict st)) st))
    | None => ([], inl ValueError)
    end.
Proof.
  intros Hok Hw.
  pose proof (hsp_match_after_rstrip m w Hok Hw) as Hre.
  split; [exact Hre|]. split.
  - rewrite (hsp_entry_none_cause _ _ Hre), hsp_ints_over_limit. reflexivity.
  - intros st Hin. rewrite (step_inside _ _ Hin). unfold step_inside_by_kind.
    assert (Hk : kind (format_hsp m ++ w) = KHsp).
    { unfold kind. rewrite (formatted_hsp_line_no_gene_cover m w Hok Hw).
      reflexivity. }
    rewrite Hk, Hre. now destruct (hsp_entry m) as [[k h]|].
Qed.

Lemma formatted_hsp_line_matches_witness :
  HSP_RE (PyStr.rstrip
            (format_hsp {| hm_hsp_id := "7"; hm_match_start := "10";
                           hm_match_end := "20"; hm_query_start := "1";
                           hm_query_end := "11"; hm_perc_id := "99.5" |}
             ++ " " ++ PyStr.LF))
  = Some {| hm_hsp_id := "7"; hm_match_start := "10"; hm_match_end := "20";
            hm_query_start := "1"; hm_query_end := "11"; hm_perc_id := "99.5" |}.
Proof.
  apply formatted_hsp_line_matches; reflexivity.
Defined.

(** ** Exceptions of the parser *)

(** X5: the generator ends with an exception only by ValueError, and only
    at an HSP line that matches HSP_RE while [float] rejects its pid text
    or one of its five integer fields has more than 4300 digits; on an input
    without such a line it runs to the end. *)
Theorem parser_raises_only_at_hsp_conversion
    (st : parser_state) (lines : list string) (e : exn) :
  snd (run st lines) = inl e ->
  e = ValueError /\
  exists (before : list string) (line : string) (after : list string)
         (m : HspMatch),
    lines = before ++ line :: after /\
    kind line = KHsp /\
    HSP_RE (PyStr.rstrip line) = Some m /\
    (PyNum.py_float (hm_perc_id m) = None \/
     4300 < Z.of_nat (String.length (hm_hsp_id m)) \/
     4300 < Z.of_nat (String.length (hm_match_start m)) \/
     4300 < Z.of_nat (String.length (hm_match_end m)) \/
     4300 < Z.of_nat (String.length (hm_query_start m)) \/
     4300 < Z.of_nat (String.length (hm_query_end m))).
Proof.
  revert st. induction lines as [|l ls IH]; intros st H; [discriminate|].
  cbn [run] in H.
  pose proof (step_raise_cause st l) as Hc.
  destruct (step st l) as [out [e'|st1]].
  - cbn in H. injection H as ->.
    destruct (Hc e eq_refl) as (-> & _ & Hk & m & Hm & Hp).
    split; [reflexivity|]. exists [], l, ls, m.
    rewrite <- hsp_ints_over_limit. auto.
  - destruct (run st1 ls) as [out1 r1] eqn:E. cbn in H. subst r1.
    specialize (IH st1). rewrite E in IH.
    destruct (IH eq_refl) as (-> & before & line & after & m & -> & Hk & Hm & Hp).
    split; [reflexivity|]. now exists (l :: before), line, after, m.
Qed.

Lemma parser_raises_only_at_hsp_conversion_witness :
  exists (before : list string) (line : string) (after : list string)
         (m : HspMatch),
    [Sample.start_line; Sample.bad_pid_line; Sample.end_line]
    = before ++ line :: after /\
    kind line = KHsp /\
    HSP_RE (PyStr.rstrip line) = Some m /\
    (PyNum.py_float (hm_perc_id m) = None \/
     4300 < Z.of_nat (String.length (hm_hsp_id m)) \/
     4300 < Z.of_nat (String.length (hm_match_start m)) \/
     4300 < Z.of_nat (String.length (hm_match_end m)) \/
     4300 < Z.of_nat (String.length (hm_query_start m)) \/
     4300 < Z.of_nat (String.length (hm_query_end m))).
Proof.
  exact (proj2 (parser_raises_only_at_hsp_conversion initial_state
                  [Sample.start_line; Sample.bad_pid_line; Sample.end_line]
                  ValueError eq_refl)).
Defined.

(** ** Records and gene-cover lines *)

Lemma subseq_refl {A : Type} (l : list A) : subseq l l.
Proof. induction l; constructor; assumption. Qed.

Lemma subseq_nil_l {A : Type} (l : list A) : subseq [] l.
Proof. induction l; constructor; assumption. Qed.

Lemma subseq_app {A : Type} (a b c d : list A) :
  subseq a b -> subseq c d -> subseq (a ++ c) (b ++ d).
Proof. intros Hab Hcd. induction Hab; cbn; try constructor; assumption. Qed.

Lemma subseq_trans {A : Type} (b c : list A) :
  subseq b c -> forall a, subseq a b -> subseq a c.
Proof.
  induction 1 as [|x b c _ IH|x b c _ IH]; intros a Hab.
  - exact Hab.
  - constructor. now apply IH.
  - inversion Hab; subst; constructor; now apply IH.
Qed.

Lemma subseq_length {A : Type} (a b : list A) :
  subseq a b -> (length a <= length b)%nat.
Proof. induction 1; cbn; lia. Qed.

Lemma subseq_app_tail {A : Type} (l t : list A) : subseq l (l ++ t).
Proof.
  rewrite <- (app_nil_r l) at 1. apply subseq_app; [apply subseq_refl|].
  apply subseq_nil_l.
Qed.

Lemma pending_matches (st : parser_state) :
  map pr_match (records (pending st)) = active_match st.
Proof. unfold pending, active_match. now destruct (genomic_match st). Qed.

(** What a step yields and the match it leaves active come, in this order,
    from the match that was active and the match of the line. *)
Lemma step_matches_in_order (st : parser_state) (line : string) :
  subseq
    (map pr_match (records (fst (step st line)))
     ++ match snd (step st line) with
        | inr st' => active_match st'
        | inl _ => []
        end)
    (active_match st ++ gene_matches [line]).
Proof.
  unfold gene_matches, gene_of_line. cbn [flat_map]. rewrite app_nil_r.
  step_cases st line;
    repeat match goal with
           | H : kind _ = _ |- _ => rewrite H
           | H : GENOMIC_MATCH_RE _ = _ |- _ => rewrite H
           end;
    cbn [fst snd]; rewrite ?records_app; cbn [records]; rewrite ?app_nil_r;
    cbn [map]; rewrite ?pending_matches;
    try (unfold active_match at 2;
         cbn [genomic_match set_query_name set_in_record set_hsp_dict
              initial_state]);
    fold (active_match st);
    rewrite ?app_nil_r; cbn [app];
    try apply subseq_refl; try apply subseq_app_tail; apply subseq_nil_l.
Qed.

Lemma gene_matches_cons (l : string) (ls : list string) :
  gene_matches (l :: ls) = gene_matches [l] ++ gene_matches ls.
Proof. unfold gene_matches. cbn [flat_map]. now rewrite app_nil_r. Qed.

Lemma run_matches_in_order (lines : list string) :
  forall st : parser_state,
  subseq
    (map pr_match (records (fst (run st lines)))
     ++ match snd (run st lines) with
        | inr st' => active_match st'
        | inl _ => []
        end)
    (active_match st ++ gene_matches lines).
Proof.
  induction lines as [|l ls IH]; intros st.
  - cbn. rewrite app_nil_r. apply subseq_refl.
  - pose proof (step_matches_in_order st l) as Hs.
    rewrite (gene_matches_cons l ls).
    cbn [run].
    destruct (step st l) as [out [e|st1]]; cbn [fst snd] in *.
    + rewrite app_assoc. eapply subseq_trans; [apply subseq_app_tail | exact Hs].
    + specialize (IH st1). destruct (run st1 ls) as [out1 r1]. cbn [fst snd] in *.
      rewrite records_app, map_app, <- app_assoc, (app_assoc (active_match st)).
      eapply subseq_trans;
        [apply subseq_app; [exact Hs | apply subseq_refl]|].
      rewrite <- app_assoc. apply subseq_app; [apply subseq_refl | exact IH].
Qed.

(** X6: the matches of the records the parser yields are, in the order they
    are yielded, matches of gene-cover lines of the input that fit the
    pattern, taken in the order of the input and none of them twice, after
    the match that is active at the start if there is one; so there are at
    most as many records as such lines. *)
Theorem records_follow_gene_cover_lines
    (lines : list string) (st : parser_state) :
  subseq (map pr_match (records (fst (run st lines))))
         (active_match st ++ gene_matches lines) /\
  subseq (map pr_match (records (fst (parse_genblastA lines))))
         (gene_matches lines) /\
  (length (records (fst (parse_genblastA lines))) <= length (gene_matches lines))%nat.
Proof.
  assert (H : forall s,
            subseq (map pr_match (records (fst (run s lines))))
                   (active_match s ++ gene_matches lines)).
  { intros s. eapply subseq_trans; [apply run_matches_in_order|].
    apply subseq_app_tail. }
  split; [apply H|].
  assert (H0 : subseq (map pr_match (records (fst (parse_genblastA lines))))
                      (gene_matches lines)) by apply (H initial_state).
  split; [exact H0|].
  apply subseq_length in H0. now rewrite length_map in H0.
Qed.

(** ** The keys of the mapping *)

Lemma dict_set_keys_old (k : Z) (v : Hsp) (d : dict) :
  In k (map fst d) -> map fst (dict_set k v d) = map fst d.
Proof.
  induction d as [|[k' v'] d IH]; intros Hin; [contradiction|].
  cbn in *. destruct (Z.eqb_spec k k') as [->|Hne]; [reflexivity|].
  cbn. f_equal. apply IH. destruct Hin; [congruence | assumption].
Qed.

Lemma dict_set_nodup (k : Z) (v : Hsp) (d : dict) :
  NoDup (keys d) -> NoDup (keys (dict_set k v d)).
Proof.
  unfold keys. intros Hnd.
  destruct (in_dec Z.eq_dec k (map fst d)) as [Hin|Hout].
  - now rewrite dict_set_keys_old.
  - rewrite dict_set_keys_new by assumption.
    apply NoDup_app; [exact Hnd | repeat constructor; auto |].
    intros x Hx [<-|[]]. contradiction.
Qed.

Lemma dict_get_missing (k : Z) (d : dict) :
  ~ In k (keys d) -> dict_get k d = None.
Proof.
  induction d as [|[k' v] d IH]; [reflexivity|].
  cbn. intros Hn. destruct (Z.eqb_spec k k') as [->|Hne].
  - exfalso. apply Hn. now left.
  - apply IH. intros Hc. apply Hn. now right.
Qed.

(** With distinct keys, looking every key up gives the stored values in
    order. *)
Lemma looked_up_stored (d : dict) :
  NoDup (keys d) -> looked_up_perc_ids d = map Some (perc_ids d).
Proof.
  unfold looked_up_perc_ids, perc_ids, keys.
  induction d as [|[k v] d IH]; intros Hnd; [reflexivity|].
  cbn [map fst snd dict_get]. rewrite Z.eqb_refl. cbn [option_map].
  inversion Hnd as [|? ? Hk Hnd']; subst. f_equal.
  rewrite <- (IH Hnd'). apply map_ext_in.
  intros k' Hk'. destruct (Z.eqb_spec k' k) as [->|Hne]; [contradiction|].
  reflexivity.
Qed.

Lemma step_keeps_keys_distinct (st : parser_state) (line : string) :
  NoDup (keys (hsp_dict st)) ->
  (forall r, In r (records (fst (step st line))) -> NoDup (keys (pr_hsps r))) /\
  (forall st', snd (step st line) = inr st' -> NoDup (keys (hsp_dict st'))).
Proof.
  intros Hnd.
  assert (Hp : forall r, In r (records (pending st)) -> NoDup (keys (pr_hsps r))).
  { unfold pending. destruct (genomic_match st); [|contradiction].
    intros r [<-|[]]. exact Hnd. }
  assert (Hc : NoDup (keys (carried st))).
  { unfold carried. destruct (genomic_match st); [constructor | exact Hnd]. }
  step_cases st line; cbn [fst snd]; try rewrite records_app;
    cbn [records]; try rewrite app_nil_r;
    (split; [try exact Hp; try contradiction
            | intros st' H; inversion H; subst; cbn;
              auto using dict_set_nodup, NoDup_nil]).
Qed.

(** X7: the hsp_ids of a record the parser yields are distinct, so looking
    up every key of its mapping, as line 76 does, gives the perc_id of each
    entry once, in the order the ids were first seen. *)
Theorem record_keys_distinct (input : list string) (r : ParsedRecord) :
  In r (records (fst (parse_genblastA input))) ->
  NoDup (keys (pr_hsps r)) /\
  looked_up_perc_ids (pr_hsps r) = map Some (perc_ids (pr_hsps r)).
Proof.
  assert (H : forall ls st, NoDup (keys (hsp_dict st)) ->
            forall r', In r' (records (fst (run st ls))) -> NoDup (keys (pr_hsps r'))).
  { induction ls as [|l ls IH]; intros st Hnd r' Hin; [contradiction|].
    destruct (step_keeps_keys_distinct st l Hnd) as [Hy Hs].
    cbn [run] in Hin.
    destruct (step st l) as [out [e|st1]]; cbn [fst snd] in *; [now apply Hy|].
    specialize (IH st1 (Hs st1 eq_refl) r').
    destruct (run st1 ls) as [out1 r1]. cbn [fst] in *.
    rewrite records_app in Hin. apply in_app_or in Hin as [Hin|Hin]; auto. }
  intros Hin.
  assert (Hnd : NoDup (keys (pr_hsps r))).
  { apply (H input initial_state); [constructor | exact Hin]. }
  split; [exact Hnd | now apply looked_up_stored].
Qed.

Lemma record_keys_distinct_witness :
  looked_up_perc_ids [(0, Sample.hsp0); (1, Sample.hsp1)]
  = [Some (Sample.float_of "98.0"); Some (Sample.float_of "96.0")].
Proof.
  exact (proj2 (record_keys_distinct
    [Sample.start_line; Sample.gene_line; Sample.hsp_line0; Sample.hsp_line1;
     Sample.hsp_line0; Sample.end_line]
    {| pr_match := Sample.gene_match;
       pr_hsps := [(0, Sample.hsp0); (1, Sample.hsp1)] |}
    (or_introl eq_refl))).
Defined.

Lemma dict_get_set (k k' : Z) (v : Hsp) (d : dict) :
  dict_get k (dict_set k' v d) = if Z.eqb k k' then Some v else dict_get k d.
Proof.
  induction d as [|[k0 v0] d IH]; cbn.
  - reflexivity.
  - destruct (Z.eqb_spec k' k0) as [->|Hne]; cbn.
    + now destruct (Z.eqb k k0).
    + rewrite IH. destruct (Z.eqb_spec k k0) as [->|Hne'].
      * destruct (Z.eqb_spec k0 k'); [congruence | reflexivity].
      * reflexivity.
Qed.

Lemma dict_get_dict_of (k : Z) (es : list (Z * Hsp)) :
  forall d : dict,
  dict_get k (dict_of es d) =
  match last_entry k es with
  | Some v => Some v
  | None => dict_get k d
  end.
Proof.
  induction es as [|[k' v] es IH]; intros d; [reflexivity|].
  cbn [dict_of fold_left fst snd last_entry].
  fold (dict_of es (dict_set k' v d)). rewrite IH, dict_get_set.
  destruct (last_entry k es); [reflexivity|]. now destruct (Z.eqb k k').
Qed.

(** X8: over the well-formed lines of a record, the entry of an hsp_id is
    the one of the last HSP line with that id, and an id that no line names
    keeps the entry it had; nothing is yielded or logged and the active
    match stays. *)
Theorem last_hsp_line_wins (st : parser_state) (lines : list string) :
  in_record st = true ->
  Forall (fun l => body_line l = true) lines ->
  exists st' : parser_state,
    run st lines = ([], inr st') /\
    in_record st' = true /\
    genomic_match st' = genomic_match st /\
    forall k : Z,
      dict_get k (hsp_dict st') =
      match last_entry k (entries lines) with
      | Some h => Some h
      | None => dict_get k (hsp_dict st)
      end.
Proof.
  intros Hin Hall. eexists. split; [now apply run_body|].
  cbn [in_record genomic_match hsp_dict]. repeat split.
  intros k. apply dict_get_dict_of.
Qed.

Lemma last_hsp_line_wins_witness :
  exists st' : parser_state,
    run (set_in_record true initial_state)
        [Sample.hsp_line0; Sample.query_line; Sample.hsp_line0_again]
    = ([], inr st') /\
    dict_get 0 (hsp_dict st') = Some Sample.hsp0_again /\
    dict_get 5 (hsp_dict st') = None.
Proof.
  destruct (last_hsp_line_wins (set_in_record true initial_state)
              [Sample.hsp_line0; Sample.query_line; Sample.hsp_line0_again]
              eq_refl ltac:(repeat constructor))
    as (st' & Hrun & _ & _ & Hget).
  exists st'. split; [exact Hrun|].
  split; rewrite Hget; vm_compute; reflexivity.
Defined.

(** ** Several blocks *)

(** X9: an input made of well-formed blocks, each closed by its end marker,
    with any lines that do not begin with the start marker in front of,
    between and behind them, yields the records of the blocks one block
    after the other, logs nothing and ends with the variables reset. *)
Theorem blocks_compose (bs : list framed_block) (trailing : list string) :
  Forall framed_block_ok bs ->
  Forall (fun l => PyStr.startswith START_STR l = false) trailing ->
  parse_genblastA (flat_map framed_block_lines bs ++ trailing) =
  (map Yield (flat_map framed_block_records bs), inr initial_state).
Proof.
  intros Hbs Htrail. unfold parse_genblastA.
  induction Hbs as [|b bs (Hgap & Hstart & Hpre & Hsegs & Hstop) _ IH].
  - cbn. now apply run_skip.
  - cbn [flat_map]. unfold framed_block_lines at 1, framed_block_records at 1.
    rewrite <- !app_assoc.
    erewrite run_app_ok by (apply run_skip; [reflexivity | exact Hgap]).
    erewrite run_app_ok
      by (apply run_block; auto using kind_end; split; reflexivity).
    rewrite IH. cbn [fst snd app]. now rewrite map_app.
Qed.

Lemma blocks_compose_witness :
  parse_genblastA
    (flat_map framed_block_lines
       [ {| fb_gap := ["genblastA report" ++ PyStr.LF]%string;
            fb_start := Sample.start_line; fb_pre := [Sample.query_line];
            fb_segments := [Sample.segment1]; fb_stop := Sample.end_line |};
         {| fb_gap := []; fb_start := Sample.start_line; fb_pre := [];
            fb_segments := [Sample.segment2]; fb_stop := Sample.end_line |} ]
     ++ [Sample.end_line])
  = ([Yield {| pr_match := Sample.gene_match;
               pr_hsps := [(0, Sample.hsp0); (1, Sample.hsp1)] |};
      Yield {| pr_match := Sample.gene_match2;
               pr_hsps := [(1, Sample.hsp1)] |}],
     inr initial_state).
Proof.
  rewrite blocks_compose.
  - vm_compute. reflexivity.
  - repeat constructor.
  - repeat constructor.
Defined.

(** ** Query-name lines *)

Lemma startswith_app (p : string) :
  forall line : string,
  PyStr.startswith p line = true -> exists rest, line = (p ++ rest)%string.
Proof.
  induction p as [|a p IH]; intros line H; cbn in *.
  - now exists line.
  - destruct line as [|b line]; [discriminate|].
    apply andb_true_iff in H as [Hab Hp]. apply Ascii.eqb_eq in Hab as ->.
    destruct (IH _ Hp) as [rest ->]. now exists rest.
Qed.

(** X10: a line that begins with the query-name marker is a query-name line
    whatever follows; its first two fields are the two words of the marker,
    so it is accepted exactly when two fields follow the marker, the first
    of which becomes the query name; otherwise the count of all fields is
    logged and the record is given up. *)
Theorem query_name_line_fields (st : parser_state) (line : string) :
  in_record st = true ->
  PyStr.startswith QUERY_NAME_STR line = true ->
  exists rest : string,
    line = (QUERY_NAME_STR ++ rest)%string /\
    PyStr.split line = "//for" :: "query:" :: PyStr.split rest /\
    step st line =
    match PyStr.split rest with
    | [name; _] => ([], inr (set_query_name name st))
    | fields =>
        ([LogError (WrongFieldCount (2 + length fields) line)],
         inr (set_in_record false st))
    end.
Proof.
  intros Hin Hq. destruct (startswith_app _ _ Hq) as [rest ->].
  exists rest. split; [reflexivity|].
  assert (Hsplit : PyStr.split (QUERY_NAME_STR ++ rest)
                   = "//for" :: "query:" :: PyStr.split rest) by reflexivity.
  split; [exact Hsplit|].
  assert (Hk : kind (QUERY_NAME_STR ++ rest) = KQuery) by reflexivity.
  rewrite (step_inside _ _ Hin). unfold step_inside_by_kind.
  rewrite Hk, Hsplit. cbn [length nth].
  destruct (PyStr.split rest) as [|name [|f2 [|f3 fs]]]; reflexivity.
Qed.

Lemma query_name_line_fields_witness :
  step (set_in_record true initial_state) Sample.query_line
  = ([], inr (set_query_name "QGENE" (set_in_record true initial_state))).
Proof.
  destruct (query_name_line_fields (set_in_record true initial_state)
              Sample.query_line eq_refl eq_refl) as (rest & Hl & _ & Hstep).
  rewrite Hstep.
  assert (rest = ("QGENE //" ++ PyStr.LF)%string) as ->.
  { vm_compute in Hl. now injection Hl. }
  reflexivity.
Defined.

(** ** Markers in odd places *)

(** X11: inside a record a line that begins with the start marker and does
    not contain [gene cover] is ignored: records do not nest, and a record
    whose end marker is missing runs on through the next start marker. *)
Theorem start_marker_inside_record_ignored (st : parser_state) (line : string) :
  in_record st = true ->
  PyStr.startswith START_STR line = true ->
  PyStr.contains "gene cover" line = false ->
  step st line = ([], inr st).
Proof.
  intros Hin Hs Hg. destruct (startswith_app _ _ Hs) as [rest ->].
  apply step_other; [exact Hin|].
  unfold kind. rewrite Hg. reflexivity.
Qed.

Lemma start_marker_inside_record_ignored_witness :
  step {| in_record := true; hsp_dict := [(0, Sample.hsp0)];
          genomic_match := Some Sample.gene_match; query_name := "QGENE" |}
       Sample.start_line
  = ([], inr {| in_record := true; hsp_dict := [(0, Sample.hsp0)];
                genomic_match := Some Sample.gene_match;
                query_name := "QGENE" |}).
Proof.
  apply start_marker_inside_record_ignored; reflexivity.
Defined.

(** X12: a line the parser gives the record up on without a match of its
    own at stake, a query-name line that does not have four fields or an
    HSP line that fails its pattern, logs one error and yields nothing; the
    lines up to the next start marker are skipped, and after that marker the
    parser goes on with the very variables it had before the line, active
    match and mapping included. *)
Theorem aborted_record_resumes_unchanged
    (st : parser_state) (line : string) (skipped : list string)
    (start : string) (rest : list string) :
  in_record st = true ->
  aborting_line line = true ->
  Forall (fun l => PyStr.startswith START_STR l = false) skipped ->
  PyStr.startswith START_STR start = true ->
  run st (line :: skipped ++ start :: rest) =
  (LogError (abort_error line) :: fst (run st rest), snd (run st rest)).
Proof.
  intros Hin Hab Hskip Hstart.
  assert (Hstep : step st line =
                  ([LogError (abort_error line)], inr (set_in_record false st))).
  { rewrite (step_inside _ _ Hin). unfold step_inside_by_kind.
    unfold aborting_line, abort_error in *.
    destruct (kind line); try discriminate.
    - now destruct (Nat.eqb (length (PyStr.split line)) 4).
    - now destruct (HSP_RE (PyStr.rstrip line)). }
  rewrite (run_cons_ok _ _ _ _ _ Hstep).
  erewrite run_app_ok by (apply run_skip; [reflexivity | exact Hskip]).
  erewrite run_cons_ok by (apply step_outside_start; [reflexivity | exact Hstart]).
  assert (Hst : set_in_record true (set_in_record false st) = st).
  { destruct st. cbn in Hin. now subst. }
  rewrite Hst. reflexivity.
Qed.

Lemma aborted_record_resumes_unchanged_witness :
  run {| in_record := true; hsp_dict := [(0, Sample.hsp0)];
         genomic_match := Some Sample.gene_match; query_name := "QGENE" |}
      (Sample.bad_hsp_line :: [Sample.end_line]
         ++ Sample.start_line :: [Sample.hsp_line1; Sample.end_line])
  = ([LogError (HspRegexpFailed Sample.bad_hsp_line);
      Yield {| pr_match := Sample.gene_match;
               pr_hsps := [(0, Sample.hsp0); (1, Sample.hsp1)] |}],
     inr initial_state).
Proof.
  rewrite aborted_record_resumes_unchanged.
  - vm_compute. reflexivity.
  - reflexivity.
  - reflexivity.
  - repeat constructor.
  - reflexivity.
Defined.

(** ** Exceptions of the emitter *)

(** X13: on a match of the gene-cover pattern [write_gff_line] raises in
    three cases only, whatever the thresholds: ValueError, from [int], when a
    coordinate has more than 4300 digits; otherwise ZeroDivisionError when
    the mapping is empty; otherwise ValueError when the coverage text is one
    [float] rejects. *)
Theorem write_gff_line_raises
    (args : Args) (line : string) (m : GenomicMatch) (hsps : dict)
    (query_name : string) (e : exn) :
  GENOMIC_MATCH_RE line = Some m ->
  write_gff_line args m hsps query_name = Raised e <->
  ((4300 < Z.of_nat (String.length (gm_match_start m)) \/
    4300 < Z.of_nat (String.length (gm_match_end m))) /\ e = ValueError) \/
  (Z.of_nat (String.length (gm_match_start m)) <= 4300 /\
   Z.of_nat (String.length (gm_match_end m)) <= 4300 /\
   ((hsps = [] /\ e = ZeroDivisionError) \/
    (hsps <> [] /\ PyNum.py_float (gm_coverage_perc m) = None /\ e = ValueError))).
Proof.
  intros Hm.
  destruct (genomic_match_coordinates line m Hm) as (s & en & _ & _ & Hs & He).
  unfold write_gff_line. rewrite Hs, He.
  unfold PyNum.within_limit, PyNum.int_max_str_digits.
  destruct (Z.leb_spec (Z.of_nat (String.length (gm_match_end m))) 4300)
    as [Le|Le];
    destruct (Z.leb_spec (Z.of_nat (String.length (gm_match_start m))) 4300)
      as [Ls|Ls];
    try (split;
         [intros H; injection H as <-; left; split; [lia | reflexivity]
         |intros [[_ ->]|(? & ? & _)]; [reflexivity | lia]]).
  destruct hsps as [|kv hsps]; cbn [length].
  - split.
    + intros H. injection H as <-. right. repeat split; auto.
    + intros [[[?|?] _]|(_ & _ & [[_ ->]|[Hne _]])];
        try lia; [reflexivity | contradiction].
  - destruct (PyNum.py_float (gm_coverage_perc m)) as [cov|].
    + split.
      * destruct (_ && _ && _); discriminate.
      * intros [[[?|?] _]|(_ & _ & [[Hc _]|(_ & Hc & _)])];
          try lia; discriminate.
    + split.
      * intros H. injection H as <-. right. repeat split; auto.
        right. repeat split. discriminate.
      * intros [[[?|?] _]|(_ & _ & [[Hc _]|(_ & _ & ->)])];
          try lia; [discriminate | reflexivity].
Qed.

Lemma write_gff_line_raises_witness :
  write_gff_line Sample.default_args
    {| gm_query_name := "Q"; gm_match_name := "CHR1"; gm_match_start := "1";
       gm_match_end := "500"; gm_strand := "+"; gm_coverage_num := "10";
       gm_coverage_perc := "9.5.1"; gm_score := "3"; gm_rank := "1" |}
    [(0, Sample.hsp0)] "Q"
  = Raised ValueError.
Proof.
  apply (write_gff_line_raises Sample.default_args
           "Q|CHR1:1..500|+|gene cover:10(9.5.1%)|score:3|rank:1").
  - reflexivity.
  - right. split; [vm_compute; discriminate|].
    split; [vm_compute; discriminate|].
    right. repeat split. discriminate.
Defined.

(** ** Input without a record *)

(** X14: for an input in which no line begins with the start marker, the
    empty input among them, the program writes the header line and nothing
    else, logs nothing and ends without an exception. *)
Theorem input_without_start_marker (args : Args) (input : list string) :
  Forall (fun l => PyStr.startswith START_STR l = false) input ->
  parse_genblastA input = ([], inr initial_state) /\
  main args input = ([GFF_HEADER], None).
Proof.
  intros H.
  assert (Hrun : parse_genblastA input = ([], inr initial_state))
    by (now apply run_skip).
  split; [exact Hrun|]. unfold main. now rewrite Hrun.
Qed.

Lemma input_without_start_marker_witness :
  main Sample.default_args
    [Sample.query_line; Sample.gene_line; Sample.hsp_line0; Sample.end_line]
  = ([GFF_HEADER], None).
Proof.
  apply input_without_start_marker. repeat constructor.
Defined.

(** ** The first exception of the emitter *)

(** X15: the first record on which [write_gff_line] raises ends the
    program with that exception: the feature lines of the records before it
    have been written, and no line of a later record is. *)
Theorem output_stops_at_first_raise
    (args : Args) (input : list string) (before : list ParsedRecord)
    (r : ParsedRecord) (after : list ParsedRecord) (e : exn) :
  records (fst (parse_genblastA input)) = before ++ r :: after ->
  snd (emit_all args before) = None ->
  emit args r = Raised e ->
  main args input = (GFF_HEADER :: fst (emit_all args before), Some e).
Proof.
  intros Hrs Hbefore Hr.
  assert (H : emit_all args (before ++ r :: after)
              = (fst (emit_all args before), Some e)).
  { clear Hrs. induction before as [|r0 rs IH]; cbn [app emit_all] in *.
    - now rewrite Hr.
    - destruct (emit args r0) as [l| |e0].
      + destruct (emit_all args rs) as [ls e1]. cbn [snd] in Hbefore.
        rewrite (IH Hbefore). reflexivity.
      + now apply IH.
      + discriminate. }
  unfold main. destruct (parse_genblastA input) as [evs res]. cbn [fst] in Hrs.
  now rewrite Hrs, H.
Qed.

Lemma output_stops_at_first_raise_witness :
  main Sample.default_args
    [Sample.start_line; Sample.gene_line; Sample.hsp_line0; Sample.hsp_line1;
     Sample.gene_line2; Sample.gene_line; Sample.hsp_line0; Sample.end_line]
  = ([GFF_HEADER; Sample.feature_line], Some ZeroDivisionError).
Proof.
  apply (output_stops_at_first_raise Sample.default_args _
           [{| pr_match := Sample.gene_match;
               pr_hsps := [(0, Sample.hsp0); (1, Sample.hsp1)] |}]
           {| pr_match := Sample.gene_match2; pr_hsps := [] |}
           [{| pr_match := Sample.gene_match; pr_hsps := [(0, Sample.hsp0)] |}]);
    vm_compute; reflexivity.
Defined.
